(** * Near-Earth objects: models, loaders, validators and writers

    A shallow embedding of [models.py], [extract.py], [validation.py] and
    [write.py], followed by the properties checked against it.

    Conventions.
    - A Python [float] is a primitive binary64 float; [<], [>], [==] are the
      IEEE comparisons ([PrimFloat.ltb], [PrimFloat.eqb]), so not-a-number
      compares false with everything, itself included.
    - A Python [str] is a [string] whose characters are the code points
      below 256.
    - A call that may raise returns a [result]: [Ok v] or [Raise e]; an
      exception is a class and the message pieces of its f-string.
    - Python built-ins and the repository's [helpers] module, whose text is
      not part of the four files, are the fields of the class [Runtime]. *)

From Stdlib Require Import Floats.PrimFloat ZArith Ascii.
From Stdlib Require Uint63 Floats.FloatOps Floats.SpecFloat.
From Stdlib Require Floats.FloatAxioms.
From stdpp Require Import gmap strings list pretty.

Set Warnings "-register-all".
Open Scope string_scope.

(** ** Python values *)

(** The values that reach the modelled code: [None], [bool], [float], [str]
    and [dict] with string keys (insertion order kept). *)
Inductive pyval :=
| PNone
| PBool (b : bool)
| PFloat (f : float)
| PStr (s : string)
| PDict (kvs : list (string * pyval)).

(** ** Exceptions *)

(** The exception classes the four files name or can meet.  A class stands
    for itself and its subclasses, which is how [except] matches. *)
Inductive exn_class :=
| AttributeError | KeyError | TypeError | ValueError | IndexError
| OSError | ValidationError.

Global Instance exn_class_eq_dec : EqDecision exn_class.
Proof. solve_decision. Defined.

(** One piece of a formatted message: literal text, or a value that the
    f-string formats in place. *)
Inductive piece :=
| Lit (s : string)
| Fmt (v : pyval).

Record exn := Exn { exn_kind : exn_class; exn_msg : list piece }.

Inductive result (A : Type) :=
| Ok (a : A)
| Raise (e : exn).
Arguments Ok {A} a.
Arguments Raise {A} e.

Global Instance result_ret : MRet result := fun A a => Ok a.
Global Instance result_bind : MBind result := fun A B k r =>
  match r with
  | Ok a => k a
  | Raise e => Raise e
  end.

Definition raises {A} (r : result A) : bool :=
  match r with Ok _ => false | Raise _ => true end.

Definition raised_kind {A} (r : result A) : option exn_class :=
  match r with Ok _ => None | Raise e => Some (exn_kind e) end.

(** ** Strings *)

Definition nl : string := String "010"%char "".
Definition cr : string := String "013"%char "".

(** [str.isspace] on the code points below 256. *)
Definition isspace (c : ascii) : bool :=
  let n := Ascii.N_of_ascii c in
  ((9 <=? n) && (n <=? 13) || (28 <=? n) && (n <=? 32)
   || (n =? 133) || (n =? 160))%N.

Fixpoint lstrip (s : string) : string :=
  match s with
  | EmptyString => EmptyString
  | String c r => if isspace c then lstrip r else s
  end.

Fixpoint rstrip (s : string) : string :=
  match s with
  | EmptyString => EmptyString
  | String c r =>
      match rstrip r with
      | EmptyString => if isspace c then EmptyString else String c EmptyString
      | r' => String c r'
      end
  end.

(** [s.strip()] *)
Definition strip (s : string) : string := rstrip (lstrip s).

Definition nonempty (s : string) : bool :=
  match s with EmptyString => false | _ => true end.

Fixpoint blank (s : string) : bool :=
  match s with
  | EmptyString => true
  | String c r => isspace c && blank r
  end.

(** [sep.join(l)] *)
Fixpoint join (sep : string) (l : list string) : string :=
  match l with
  | [] => ""
  | [x] => x
  | x :: r => x +:+ sep +:+ join sep r
  end.

(** ** Truthiness and conversions *)

(** [bool(v)]: what [if v] tests. *)
Definition truthy (v : pyval) : bool :=
  match v with
  | PNone => false
  | PBool b => b
  | PFloat f => negb (f =? 0)%float
  | PStr s => nonempty s
  | PDict kvs => match kvs with [] => false | _ => true end
  end.

Definition type_name (v : pyval) : string :=
  match v with
  | PNone => "NoneType"
  | PBool _ => "bool"
  | PFloat _ => "float"
  | PStr _ => "str"
  | PDict _ => "dict"
  end.

(** ** validation.py *)

Definition validate_distance_range
    (min_distance max_distance : option float) : result unit :=
  match min_distance, max_distance with
  | Some lo, Some hi =>
      if (hi <? lo)%float then
        Raise (Exn ValidationError
          [Lit "Minimum distance "; Fmt (PFloat lo);
           Lit " cannot be greater than maximum distance "; Fmt (PFloat hi)])
      else if (lo <? 0)%float then
        Raise (Exn ValidationError
          [Lit "Minimum distance "; Fmt (PFloat lo); Lit " cannot be negative"])
      else if (hi <? 0)%float then
        Raise (Exn ValidationError
          [Lit "Maximum distance "; Fmt (PFloat hi); Lit " cannot be negative"])
      else Ok tt
  | _, _ => Ok tt
  end.

Definition validate_velocity_range
    (min_velocity max_velocity : option float) : result unit :=
  match min_velocity, max_velocity with
  | Some lo, Some hi =>
      if (hi <? lo)%float then
        Raise (Exn ValidationError
          [Lit "Minimum velocity "; Fmt (PFloat lo);
           Lit " cannot be greater than maximum velocity "; Fmt (PFloat hi)])
      else if (lo <? 0)%float then
        Raise (Exn ValidationError
          [Lit "Minimum velocity "; Fmt (PFloat lo); Lit " cannot be negative"])
      else if (hi <? 0)%float then
        Raise (Exn ValidationError
          [Lit "Maximum velocity "; Fmt (PFloat hi); Lit " cannot be negative"])
      else Ok tt
  | _, _ => Ok tt
  end.

Definition validate_diameter_range
    (min_diameter max_diameter : option float) : result unit :=
  match min_diameter, max_diameter with
  | Some lo, Some hi =>
      if (hi <? lo)%float then
        Raise (Exn ValidationError
          [Lit "Minimum diameter "; Fmt (PFloat lo);
           Lit " cannot be greater than maximum diameter "; Fmt (PFloat hi)])
      else if (lo <? 0)%float then
        Raise (Exn ValidationError
          [Lit "Minimum diameter "; Fmt (PFloat lo); Lit " cannot be negative"])
      else if (hi <? 0)%float then
        Raise (Exn ValidationError
          [Lit "Maximum diameter "; Fmt (PFloat hi); Lit " cannot be negative"])
      else Ok tt
  | _, _ => Ok tt
  end.

Definition validate_limit (limit : option Z) : result unit :=
  match limit with
  | Some n =>
      if (n <=? 0)%Z then
        Raise (Exn ValidationError
          [Lit "Limit "; Lit (pretty n); Lit " must be a positive integer"])
      else Ok tt
  | None => Ok tt
  end.

(** ** What the four files take from outside *)

Class Runtime := {
  (** [str(f)] of a float *)
  str_of_float : float -> string;
  (** [str(d)] of a dict *)
  str_of_dict : list (string * pyval) -> string;
  (** [float(s)] of a string; [ValueError] when it is no number *)
  float_of_str : string -> result float;
  (** the value type of [datetime.datetime] *)
  datetime : Type;
  (** [helpers.cd_to_datetime] *)
  cd_to_datetime : pyval -> result datetime;
  (** [helpers.datetime_to_str] *)
  datetime_to_str : datetime -> string;
  (** [json.dump(v, file, indent=2, separators=(',', ': '))]: the text that
      reaches the file, and the exception that stops it, if any *)
  json_dump : pyval -> string * option exn;
  (** [csv.DictWriter.writerow] on the seven cells of a row, in header
      order: the line it writes *)
  csv_writerow : list pyval -> string;
}.

Section Program.
Context {R : Runtime}.

(** [str(v)] *)
Definition py_str (v : pyval) : string :=
  match v with
  | PNone => "None"
  | PBool true => "True"
  | PBool false => "False"
  | PFloat f => str_of_float f
  | PStr s => s
  | PDict kvs => str_of_dict kvs
  end.

(** [float(v)] *)
Definition py_float (v : pyval) : result float :=
  match v with
  | PFloat f => Ok f
  | PBool b => Ok (if b then 1 else 0)%float
  | PStr s => float_of_str s
  | _ => Raise (Exn TypeError
           [Lit "float() argument must be a string or a real number, not '";
            Lit (type_name v); Lit "'"])
  end.

(** [v.strip()] *)
Definition py_strip (v : pyval) : result string :=
  match v with
  | PStr s => Ok (strip s)
  | _ => Raise (Exn AttributeError
           [Lit "'"; Lit (type_name v); Lit "' object has no attribute 'strip'"])
  end.

(** [v[key]] with a string key; the dicts that the code builds have
    distinct keys. *)
Fixpoint dict_get (kvs : list (string * pyval)) (key : string) : option pyval :=
  match kvs with
  | [] => None
  | (k, v) :: rest => if String.eqb k key then Some v else dict_get rest key
  end.

Definition subscript (v : pyval) (key : string) : result pyval :=
  match v with
  | PDict kvs =>
      match dict_get kvs key with
      | Some x => Ok x
      | None => Raise (Exn KeyError [Fmt (PStr key)])
      end
  | PStr _ => Raise (Exn TypeError
                 [Lit "string indices must be integers, not 'str'"])
  | _ => Raise (Exn TypeError
           [Lit "'"; Lit (type_name v); Lit "' object is not subscriptable"])
  end.

(** ** models.py *)

(** [approaches] holds references to the linked close approaches; the
    constructor leaves it empty and nothing in the four files fills it. *)
Record NearEarthObject := {
  designation : string;
  name : pyval;
  diameter : float;
  hazardous : bool;
  approaches : list nat;
}.

Definition NearEarthObject_init
    (designation name diameter hazardous : pyval) : result NearEarthObject :=
  let designation' := if truthy designation then py_str designation else "" in
  name' ← (if truthy name
           then s ← py_strip name; mret (if nonempty s then name else PNone)
           else mret PNone);
  diameter' ← (if truthy diameter && nonempty (strip (py_str diameter))
               then py_float diameter
               else mret nan);
  mret {| designation := designation';
          name := name';
          diameter := diameter';
          hazardous := truthy hazardous;
          approaches := [] |}.

Definition NearEarthObject_fullname (self : NearEarthObject) : string :=
  if truthy (name self)
  then designation self +:+ " (" +:+ py_str (name self) +:+ ")"
  else designation self.

Definition NearEarthObject_serialize (self : NearEarthObject) : pyval :=
  PDict
    [("designation", PStr (designation self));
     ("name", if truthy (name self) then name self else PStr "");
     ("diameter_km",
       PFloat (if negb (negb (diameter self =? diameter self)%float)
               then diameter self else nan));
     ("potentially_hazardous", PBool (hazardous self))].

Record CloseApproach := {
  _designation : string;
  time : option datetime;
  distance : float;
  velocity : float;
  neo : option NearEarthObject;
}.

Definition CloseApproach_init
    (designation time distance velocity : pyval) : result CloseApproach :=
  let designation' := if truthy designation then py_str designation else "" in
  time' ← (if truthy time then t ← cd_to_datetime time; mret (Some t)
           else mret None);
  distance' ← (if truthy distance then py_float distance else mret 0%float);
  velocity' ← (if truthy velocity then py_float velocity else mret 0%float);
  mret {| _designation := designation';
          time := time';
          distance := distance';
          velocity := velocity';
          neo := None |}.

Definition CloseApproach_time_str (self : CloseApproach) : string :=
  match time self with
  | Some t => datetime_to_str t
  | None => ""
  end.

Definition CloseApproach_serialize (self : CloseApproach) : pyval :=
  PDict
    [("datetime_utc", PStr (CloseApproach_time_str self));
     ("distance_au", PFloat (distance self));
     ("velocity_km_s", PFloat (velocity self));
     ("neo",
       match neo self with
       | Some n => NearEarthObject_serialize n
       | None =>
           PDict
             [("designation", PStr (_designation self));
              ("name", PStr "");
              ("diameter_km", PFloat nan);
              ("potentially_hazardous", PBool false)]
       end)].

(** ** extract.py *)

(** [row[key]] on a row of [csv.DictReader] *)
Definition row_get (row : gmap string pyval) (key : string) : result pyval :=
  match row !! key with
  | Some v => Ok v
  | None => Raise (Exn KeyError [Fmt (PStr key)])
  end.

(** [v == s] for a string literal [s] *)
Definition eq_str (v : pyval) (s : string) : bool :=
  match v with
  | PStr t => String.eqb t s
  | _ => false
  end.

(** The body of the [for row in reader] loop. *)
Definition load_neo (row : gmap string pyval) : result NearEarthObject :=
  designation ← row_get row "pdes";
  name ← (v ← row_get row "name"; s ← py_strip v;
          if nonempty s then row_get row "name" else mret PNone);
  diameter ← (v ← row_get row "diameter"; s ← py_strip v;
              if nonempty s then row_get row "diameter" else mret PNone);
  pha ← row_get row "pha";
  let hazardous := eq_str pha "Y" in
  NearEarthObject_init designation name diameter (PBool hazardous).

(** [load_neos] on the rows that [csv.DictReader] yields. *)
Definition load_neos (reader : list (gmap string pyval))
    : result (list NearEarthObject) :=
  mapM load_neo reader.

(** [fields.index(x)]: the first position of [x]. *)
Fixpoint list_index (x : string) (l : list string) : option nat :=
  match l with
  | [] => None
  | y :: r => if String.eqb y x then Some 0 else S <$> list_index x r
  end.

Definition index (fields : list string) (x : string) : result nat :=
  match list_index x fields with
  | Some i => Ok i
  | None => Raise (Exn ValueError [Fmt (PStr x); Lit " is not in list"])
  end.

(** [row[i]] on a list *)
Definition item_at (row : list pyval) (i : nat) : result pyval :=
  match row !! i with
  | Some v => Ok v
  | None => Raise (Exn IndexError [Lit "list index out of range"])
  end.

(** [load_approaches] on the decoded JSON document
    [{"fields": fields, "data": approach_data}]. *)
Definition load_approaches (fields : list string)
    (approach_data : list (list pyval)) : result (list CloseApproach) :=
  des_idx ← index fields "des";
  cd_idx ← index fields "cd";
  dist_idx ← index fields "dist";
  v_rel_idx ← index fields "v_rel";
  mapM (fun approach_row =>
          designation ← item_at approach_row des_idx;
          time ← item_at approach_row cd_idx;
          distance ← item_at approach_row dist_idx;
          velocity ← item_at approach_row v_rel_idx;
          CloseApproach_init designation time distance velocity)
       approach_data.

(** ** write.py *)

(** An output file opened for writing: the text that reached the file and
    the text still in the write buffer.  Opening, writing and flushing are
    taken to succeed; the operating system failing them is not modelled. *)
Record file := { durable : string; pending : string }.

Definition file_open : file := {| durable := ""; pending := "" |}.

Definition file_write (s : string) (f : file) : file :=
  {| durable := durable f; pending := pending f +:+ s |}.

Definition file_flush (f : file) : file :=
  {| durable := durable f +:+ pending f; pending := "" |}.

(** Leaving the [with] block closes the file: the buffer is flushed and the
    file holds the result. *)
Definition file_close (f : file) : string := durable (file_flush f).

(** An element of [results]: a [CloseApproach], or any other object, given
    by what calling its [serialize()] does (an object without that method
    raises [AttributeError]). *)
Inductive item :=
| Approach (a : CloseApproach)
| Duck (r : result pyval).

Definition serialize (approach : item) : result pyval :=
  match approach with
  | Approach a => Ok (CloseApproach_serialize a)
  | Duck r => r
  end.

(** What a call of a writer leaves behind: the destination's content, the
    lines printed to [sys.stderr], and whether it returned or raised. *)
Record export := {
  written : string;
  stderr : list (list piece);
  outcome : result unit;
}.

Definition warning (e : exn) : list piece :=
  Lit "Warning: Skipping invalid approach data: " :: exn_msg e.

Definition fieldnames : list string :=
  ["datetime_utc"; "distance_au"; "velocity_km_s"; "designation"; "name";
   "diameter_km"; "potentially_hazardous"].

(** [writer.writeheader()]: the names joined by commas and the writer's
    line terminator. *)
Definition writeheader : string :=
  "datetime_utc,distance_au,velocity_km_s,designation,name,diameter_km,potentially_hazardous"
  +:+ cr +:+ nl.

(** [except (AttributeError, KeyError)] *)
Definition csv_catches (e : exn) : bool :=
  match exn_kind e with
  | AttributeError | KeyError => true
  | _ => false
  end.

(** The body of the [try] in [write_to_csv]: the cells of the row. *)
Definition csv_row (approach : item) : result (list pyval) :=
  data ← serialize approach;
  c1 ← subscript data "datetime_utc";
  c2 ← subscript data "distance_au";
  c3 ← subscript data "velocity_km_s";
  n4 ← subscript data "neo"; c4 ← subscript n4 "designation";
  n5 ← subscript data "neo"; c5 ← subscript n5 "name";
  n6 ← subscript data "neo"; c6 ← subscript n6 "diameter_km";
  n7 ← subscript data "neo"; c7 ← subscript n7 "potentially_hazardous";
  mret [c1; c2; c3; c4; c5; c6; c7].

Fixpoint write_to_csv_loop (results : list item) (f : file)
    (err : list (list piece)) : file * list (list piece) * option exn :=
  match results with
  | [] => (f, err, None)
  | approach :: rest =>
      match csv_row approach with
      | Ok row => write_to_csv_loop rest (file_write (csv_writerow row) f) err
      | Raise e =>
          if csv_catches e
          then write_to_csv_loop rest f (err ++ [warning e])
          else (f, err, Some e)
      end
  end.

(** [except OSError as e: raise OSError(f"... {filename}: {e}") from e] *)
Definition reraise (what filename : string) (e : exn) : exn :=
  match exn_kind e with
  | OSError => Exn OSError (Lit what :: Lit filename :: Lit ": " :: exn_msg e)
  | _ => e
  end.

Definition write_to_csv (results : list item) (filename : string) : export :=
  let f := file_write writeheader file_open in
  match write_to_csv_loop results f [] with
  | (f, err, None) =>
      {| written := file_close f; stderr := err; outcome := Ok tt |}
  | (f, err, Some e) =>
      {| written := file_close f; stderr := err;
         outcome := Raise (reraise "Failed to write CSV file " filename e) |}
  end.

(** [except (AttributeError, TypeError)] *)
Definition json_catches (e : exn) : bool :=
  match exn_kind e with
  | AttributeError | TypeError => true
  | _ => false
  end.

Fixpoint write_to_json_loop (results : list item) (f : file) (first : bool)
    (err : list (list piece)) : file * list (list piece) * option exn :=
  match results with
  | [] => (f, err, None)
  | approach :: rest =>
      let f := if negb first then file_write ("," +:+ nl) f else f in
      let first := false in
      match serialize approach with
      | Ok data =>
          let (text, stop) := json_dump data in
          let f := file_write text f in
          match stop with
          | None => write_to_json_loop rest f first err
          | Some e =>
              if json_catches e
              then write_to_json_loop rest f first (err ++ [warning e])
              else (f, err, Some e)
          end
      | Raise e =>
          if json_catches e
          then write_to_json_loop rest f first (err ++ [warning e])
          else (f, err, Some e)
      end
  end.

Definition write_to_json (results : list item) (filename : string) : export :=
  let f := file_write ("[" +:+ nl) file_open in
  match write_to_json_loop results f true [] with
  | (f, err, None) =>
      let f := file_write (nl +:+ "]") f in
      {| written := file_close f; stderr := err; outcome := Ok tt |}
  | (f, err, Some e) =>
      {| written := file_close f; stderr := err;
         outcome := Raise (reraise "Failed to write JSON file " filename e) |}
  end.

(** [except (AttributeError, TypeError)], streaming variant *)
Definition json_streaming_catches (e : exn) : bool :=
  match exn_kind e with
  | AttributeError | TypeError => true
  | _ => false
  end.

Fixpoint write_to_json_streaming_loop (results : list item) (f : file)
    (first : bool) (err : list (list piece))
    : file * list (list piece) * option exn :=
  match results with
  | [] => (f, err, None)
  | approach :: rest =>
      let f := if negb first then file_write ("," +:+ nl) f else f in
      let first := false in
      match serialize approach with
      | Ok data =>
          let (text, stop) := json_dump data in
          let f := file_write text f in
          match stop with
          | None =>
              let f := file_flush f in
              write_to_json_streaming_loop rest f first err
          | Some e =>
              if json_streaming_catches e
              then write_to_json_streaming_loop rest f first (err ++ [warning e])
              else (f, err, Some e)
          end
      | Raise e =>
          if json_streaming_catches e
          then write_to_json_streaming_loop rest f first (err ++ [warning e])
          else (f, err, Some e)
      end
  end.

Definition write_to_json_streaming (results : list item) (filename : string)
    : export :=
  let f := file_write ("[" +:+ nl) file_open in
  match write_to_json_streaming_loop results f true [] with
  | (f, err, None) =>
      let f := file_write (nl +:+ "]") f in
      {| written := file_close f; stderr := err; outcome := Ok tt |}
  | (f, err, Some e) =>
      {| written := file_close f; stderr := err;
         outcome :=
           Raise (reraise "Failed to write streaming JSON file " filename e) |}
  end.

End Program.

(** ** A runtime to run the definitions on

    A small instance of [Runtime], enough to evaluate the definitions on
    concrete inputs.  It covers less than Python does: [float(s)] accepts
    [nan], [inf] and plain decimal literals short enough for one division
    to round correctly, [str(f)] prints the exact decimal expansion (which
    is Python's text for values such as [2.0] or [0.5]), a timestamp is
    kept as its text, and a CSV cell is never quoted. *)
Module Demo.

Definition digit (c : ascii) : option N :=
  let n := Ascii.N_of_ascii c in
  if ((48 <=? n) && (n <=? 57))%N then Some (n - 48)%N else None.

(** Reads [digits] or [digits.digits]: the digits as one number, and how
    many of them follow the point. *)
Fixpoint decimal (s : string) (acc : N) (seen : bool) (point : option nat)
    : option (N * nat) :=
  match s with
  | EmptyString => if seen then Some (acc, default 0 point) else None
  | String "."%char r =>
      match point with
      | None => decimal r acc seen (Some 0)
      | Some _ => None
      end
  | String c r =>
      d ← digit c;
      decimal r (acc * 10 + d)%N true (S <$> point)
  end.

Definition float_of_N (n : N) : float := of_uint63 (Uint63.of_Z (Z.of_N n)).

Definition float_of_str (s : string) : result float :=
  let bad :=
    Raise (Exn ValueError [Lit "could not convert string to float: "; Fmt (PStr s)]) in
  let t := strip s in
  if String.eqb t "nan" then Ok nan
  else if String.eqb t "inf" then Ok infinity
  else
    let (neg, body) :=
      match t with
      | String "-"%char r => (true, r)
      | _ => (false, t)
      end in
    match decimal body 0 false None with
    | Some (n, k) =>
        if ((n <? 2 ^ 53) && (N.of_nat k <=? 22))%N then
          let x := (float_of_N n / float_of_N (10 ^ N.of_nat k))%float in
          Ok (if neg then (- x)%float else x)
        else bad
    | None => bad
    end.

Fixpoint zeros (n : nat) : string :=
  match n with O => "" | S m => "0" +:+ zeros m end.

(** The digits of [n] after the point, [k] places, trailing zeros dropped
    but one digit kept. *)
Definition fraction (n : N) (k : nat) : string :=
  let s := pretty n in
  let padded := zeros (k - String.length s) +:+ s in
  let fix trim (s : string) : string :=
    match s with
    | EmptyString => EmptyString
    | String c r =>
        match trim r with
        | EmptyString => if Ascii.eqb c "0" then EmptyString else String c ""
        | r' => String c r'
        end
    end in
  match trim padded with
  | EmptyString => "0"
  | t => t
  end.

Definition str_of_float (f : float) : string :=
  match FloatOps.Prim2SF f with
  | SpecFloat.S754_nan => "nan"
  | SpecFloat.S754_infinity s => if s then "-inf" else "inf"
  | SpecFloat.S754_zero s => if s then "-0.0" else "0.0"
  | SpecFloat.S754_finite s m e =>
      let sign := if s then "-" else "" in
      match e with
      | Z.neg p =>
          let k := Pos.to_nat p in
          let num := (Npos m * 5 ^ N.of_nat k)%N in
          let unit := (10 ^ N.of_nat k)%N in
          sign +:+ pretty (num / unit)%N +:+ "." +:+ fraction (num mod unit)%N k
      | _ => sign +:+ pretty (Npos m * 2 ^ Z.to_N e)%N +:+ ".0"
      end
  end.

Definition quoted (q : string) (s : string) : string := q +:+ s +:+ q.

(** [str] and [repr] of a value as it prints inside a dict (strings in
    single quotes, as they are). *)
Fixpoint repr (v : pyval) : string :=
  match v with
  | PNone => "None"
  | PBool b => if b then "True" else "False"
  | PFloat f => str_of_float f
  | PStr s => quoted "'" s
  | PDict kvs =>
      let fix entries (kvs : list (string * pyval)) : string :=
        match kvs with
        | [] => ""
        | [(k, x)] => quoted "'" k +:+ ": " +:+ repr x
        | (k, x) :: r => quoted "'" k +:+ ": " +:+ repr x +:+ ", " +:+ entries r
        end in
      "{" +:+ entries kvs +:+ "}"
  end.

Definition dquote : string := String "034"%char "".

Fixpoint spaces (n : nat) : string :=
  match n with O => "" | S m => " " +:+ spaces m end.

(** [json.dump] with [indent=2]; strings are written as they are, between
    double quotes. *)
Fixpoint json_text (depth : nat) (v : pyval) : string :=
  match v with
  | PNone => "null"
  | PBool b => if b then "true" else "false"
  | PFloat f =>
      if is_nan f then "NaN"
      else if (f =? infinity)%float then "Infinity"
      else if (f =? neg_infinity)%float then "-Infinity"
      else str_of_float f
  | PStr s => quoted dquote s
  | PDict kvs =>
      let fix entries (kvs : list (string * pyval)) : string :=
        match kvs with
        | [] => ""
        | [(k, x)] =>
            spaces (2 * S depth) +:+ quoted dquote k +:+ ": "
            +:+ json_text (S depth) x +:+ nl
        | (k, x) :: r =>
            spaces (2 * S depth) +:+ quoted dquote k +:+ ": "
            +:+ json_text (S depth) x +:+ "," +:+ nl +:+ entries r
        end in
      match kvs with
      | [] => "{}"
      | _ => "{" +:+ nl +:+ entries kvs +:+ spaces (2 * depth) +:+ "}"
      end
  end.

Definition cell (v : pyval) : string :=
  match v with
  | PNone => ""
  | PStr s => s
  | _ => repr v
  end.

Definition strptime (v : pyval) : result string :=
  match v with
  | PStr s => Ok s
  | _ => Raise (Exn TypeError
           [Lit "strptime() argument 1 must be str, not "; Lit (type_name v)])
  end.

Definition runtime : Runtime :=
  Build_Runtime
    str_of_float
    (fun kvs => repr (PDict kvs))
    float_of_str
    string
    strptime
    (fun t => t)
    (fun v => (json_text 0 v, None))
    (fun row => join "," (cell <$> row) +:+ cr +:+ nl).

End Demo.

(** ** Vocabulary of the statements *)

Global Instance result_fmap : FMap result := fun A B g r =>
  match r with
  | Ok a => Ok (g a)
  | Raise e => Raise e
  end.

(** A bound that is present and negative. *)
Definition negative_bound (bound : option float) : bool :=
  match bound with
  | Some x => (x <? 0)%float
  | None => false
  end.

(** Both bounds present and the lower one greater than the upper one. *)
Definition out_of_order (lower upper : option float) : bool :=
  match lower, upper with
  | Some lo, Some hi => (hi <? lo)%float
  | _, _ => false
  end.

(** The array the export is described to hold: the elements' texts between
    brackets, separated by a comma and a newline. *)
Definition json_array (elements : list string) : string :=
  "[" +:+ nl +:+ join ("," +:+ nl) elements +:+ nl +:+ "]".

(** A reordering of positions: [permute p l] has at place [j] what [l] has
    at place [p !! j]. *)
Definition permute {A} (p : list nat) (l : list A) : list A :=
  omap (fun i => l !! i) p.

(** The text an element contributes when it is serialized and dumped
    without an exception. *)
Definition element_text `{R : Runtime} (x : item) : option string :=
  match serialize x with
  | Ok data =>
      match json_dump data with
      | (text, None) => Some text
      | _ => None
      end
  | Raise _ => None
  end.

(** JSON white space: space, tab, line feed, carriage return. *)
Definition json_space (c : ascii) : bool :=
  let n := Ascii.N_of_ascii c in
  ((n =? 32) || (n =? 9) || (n =? 10) || (n =? 13))%N.

Fixpoint skip_spaces (s : string) : string :=
  match s with
  | EmptyString => EmptyString
  | String c r => if json_space c then skip_spaces r else s
  end.

(** A JSON text that is the empty array: an open and a close bracket with
    nothing but white space around and between them. *)
Definition is_empty_json_array (s : string) : bool :=
  match skip_spaces s with
  | String "["%char r =>
      match skip_spaces r with
      | String "]"%char r' =>
          match skip_spaces r' with EmptyString => true | _ => false end
      | _ => false
      end
  | _ => false
  end.

(** Everything written to a file so far, flushed or not. *)
Definition file_text (f : file) : string := durable f +:+ pending f.

(** ** Sample inputs *)

(** A header in another order than the loader names its fields, one row
    under it, and a reordering of the five positions. *)
Definition sample_fields : list string :=
  ["orbit_id"; "des"; "cd"; "dist"; "v_rel"].

Definition sample_data : list (list pyval) :=
  [[PStr "659"; PStr "433"; PStr "1900-Dec-27 01:30"; PStr "0.5"; PStr "10"]].

Definition sample_order : list nat := [4; 0; 3; 1; 2].

(** The catalogue row of the specification's example: no name, no
    diameter, marked hazardous. *)
Definition sample_row : gmap string pyval :=
  list_to_map
    [("pdes", PStr "433"); ("name", PStr ""); ("diameter", PStr "");
     ("pha", PStr "Y")].

(** A close approach as the loader builds it, not linked to its object. *)
Definition sample_approach : @CloseApproach Demo.runtime :=
  @Build_CloseApproach Demo.runtime
    "433" (Some "2020-01-01 00:00") 0.5%float 10%float None.

(** ** validation.py: dates, paths and the two aggregate checks *)

(** A [datetime.date]; [>] compares year, month and day in that order, and
    a date is always true. *)
Record date := { year : Z; month : Z; day : Z }.

Definition date_gt (a b : date) : bool :=
  ((year b <? year a)
   || (year a =? year b)
      && ((month b <? month a)
          || (month a =? month b) && (day b <? day a)))%Z.

(** [str(d)]: the ISO form, year on four digits, month and day on two. *)
Definition padded (width : nat) (n : Z) : string :=
  let digits := pretty n in
  String.string_of_list_ascii
    (replicate (width - String.length digits) "0"%char)
  +:+ digits.

Definition isoformat (d : date) : string :=
  padded 4 (year d) +:+ "-" +:+ padded 2 (month d) +:+ "-" +:+ padded 2 (day d).

Definition validate_date_range (start_date end_date : option date)
    : result unit :=
  match start_date, end_date with
  | Some s, Some e =>
      if date_gt s e then
        Raise (Exn ValidationError
          [Lit "Start date "; Lit (isoformat s);
           Lit " cannot be after end date "; Lit (isoformat e)])
      else Ok tt
  | _, _ => Ok tt
  end.

(** What [pathlib] does on the file system: the state it reads and
    changes, the parent of a path, the three tests [exists()], [is_file()]
    and [is_dir()], [mkdir(parents=True, exist_ok=True)] and
    [stat().st_mode].  Each of the tests and [stat] answers or raises;
    [mkdir] gives the new state and the exception it raised, if any. *)
Class FileSystem := {
  fs_state : Type;
  path_parent : string -> string;
  path_exists : fs_state -> string -> result bool;
  path_is_file : fs_state -> string -> result bool;
  path_is_dir : fs_state -> string -> result bool;
  path_mkdir : fs_state -> string -> fs_state * option exn;
  path_stat_mode : fs_state -> string -> result Z;
}.

(** [pathlib.Path(v)] *)
Definition to_path (v : pyval) : result string :=
  match v with
  | PStr s => Ok s
  | _ => Raise (Exn TypeError
           [Lit "expected str, bytes or os.PathLike object, not ";
            Lit (type_name v)])
  end.

(** [except (TypeError, ValueError)] *)
Definition path_catches (e : exn) : bool :=
  match exn_kind e with
  | TypeError | ValueError => true
  | _ => false
  end.

(** [except OSError] *)
Definition os_error (e : exn) : bool :=
  match exn_kind e with
  | OSError => true
  | _ => false
  end.

Section Paths.
Context {F : FileSystem}.

Definition validate_file_path (file_path : pyval) (must_exist : bool)
    (st : fs_state) : result string :=
  match to_path file_path with
  | Raise e =>
      if path_catches e then
        Raise (Exn ValidationError
                 (Lit "Invalid file path '" :: Fmt file_path :: Lit "': "
                  :: exn_msg e))
      else Raise e
  | Ok path =>
      if must_exist then
        match path_exists st path with
        | Raise e => Raise e
        | Ok false =>
            Raise (Exn ValidationError
                     [Lit "File '"; Lit path; Lit "' does not exist"])
        | Ok true =>
            match path_is_file st path with
            | Raise e => Raise e
            | Ok false =>
                Raise (Exn ValidationError
                         [Lit "Path '"; Lit path; Lit "' is not a file"])
            | Ok true => Ok path
            end
        end
      else Ok path
  end.

Definition validate_output_file_path (file_path : pyval) (st : fs_state)
    : fs_state * result string :=
  match to_path file_path with
  | Raise e =>
      if path_catches e then
        (st, Raise (Exn ValidationError
                      (Lit "Invalid output file path '" :: Fmt file_path
                       :: Lit "': " :: exn_msg e)))
      else (st, Raise e)
  | Ok path =>
      let parent_dir := path_parent path in
      match path_exists st parent_dir with
      | Raise e => (st, Raise e)
      | Ok found =>
          let (st, failed) :=
            if negb found then path_mkdir st parent_dir else (st, None) in
          match failed with
          | Some e =>
              if os_error e then
                (st, Raise (Exn ValidationError
                              (Lit "Cannot create directory '"
                               :: Lit parent_dir :: Lit "': " :: exn_msg e)))
              else (st, Raise e)
          | None =>
              match path_is_dir st parent_dir with
              | Raise e => (st, Raise e)
              | Ok false =>
                  (st, Raise (Exn ValidationError
                                [Lit "Parent path '"; Lit parent_dir;
                                 Lit "' is not a directory"]))
              | Ok true =>
                  match path_stat_mode st (path_parent path) with
                  | Raise e => (st, Raise e)
                  | Ok mode =>
                      if (Z.land mode 128 =? 0)%Z then
                        (st, Raise (Exn ValidationError
                                      [Lit "Cannot write to directory '";
                                       Lit (path_parent path); Lit "'"]))
                      else (st, Ok path)
                  end
              end
          end
      end
  end.

(** The attributes of the parsed arguments that the checks read.  The three
    paths are read under [hasattr]: [None] is an attribute that is not
    there. *)
Record Namespace := {
  start_date : option date;
  end_date : option date;
  distance_min : option float;
  distance_max : option float;
  velocity_min : option float;
  velocity_max : option float;
  diameter_min : option float;
  diameter_max : option float;
  limit : option Z;
  outfile : option pyval;
  neofile : option pyval;
  cadfile : option pyval;
}.

(** [hasattr(args, name) and args.name] *)
Definition supplied (attribute : option pyval) : option pyval :=
  match attribute with
  | Some v => if truthy v then Some v else None
  | None => None
  end.

Definition validate_query_arguments (args : Namespace) (st : fs_state)
    : fs_state * result unit :=
  match validate_date_range (start_date args) (end_date args) with
  | Raise e => (st, Raise e)
  | Ok _ =>
  match validate_distance_range (distance_min args) (distance_max args) with
  | Raise e => (st, Raise e)
  | Ok _ =>
  match validate_velocity_range (velocity_min args) (velocity_max args) with
  | Raise e => (st, Raise e)
  | Ok _ =>
  match validate_diameter_range (diameter_min args) (diameter_max args) with
  | Raise e => (st, Raise e)
  | Ok _ =>
  match validate_limit (limit args) with
  | Raise e => (st, Raise e)
  | Ok _ =>
      let (st, checked) :=
        match supplied (outfile args) with
        | Some v => validate_output_file_path v st
        | None => (st, Ok "")
        end in
      match checked with
      | Raise e => (st, Raise e)
      | Ok _ =>
          match
            match supplied (neofile args) with
            | Some v => validate_file_path v true st
            | None => Ok ""
            end
          with
          | Raise e => (st, Raise e)
          | Ok _ =>
              match supplied (cadfile args) with
              | Some v =>
                  match validate_file_path v true st with
                  | Raise e => (st, Raise e)
                  | Ok _ => (st, Ok tt)
                  end
              | None => (st, Ok tt)
              end
          end
      end
  end end end end end.

Definition validate_inspect_arguments (args : Namespace) (st : fs_state)
    : result unit :=
  match
    match supplied (neofile args) with
    | Some v => validate_file_path v true st
    | None => Ok ""
    end
  with
  | Raise e => Raise e
  | Ok _ =>
      match supplied (cadfile args) with
      | Some v =>
          match validate_file_path v true st with
          | Raise e => Raise e
          | Ok _ => Ok tt
          end
      | None => Ok tt
      end
  end.

End Paths.

(** ** More vocabulary *)

(** What an element's turn in a JSON loop leaves in the file: the text
    that [json.dump] wrote, or nothing when [serialize()] raised. *)
Definition emitted `{R : Runtime} (x : item) : string :=
  match serialize x with
  | Ok data => (json_dump data).1
  | Raise _ => ""
  end.

(** The exception that ends an element's turn in a JSON loop, if any. *)
Definition failure `{R : Runtime} (x : item) : option exn :=
  match serialize x with
  | Ok data => (json_dump data).2
  | Raise e => Some e
  end.

(** A test of the file system that answered, and answered yes. *)
Definition holds (answer : result bool) : bool :=
  match answer with
  | Ok b => b
  | Raise _ => false
  end.

(** What a run of a JSON loop prints and how it ends, read off the
    elements alone: the warnings of the failures it catches, up to the
    first exception it does not catch. *)
Fixpoint json_trace `{R : Runtime} (results : list item)
    : list (list piece) * option exn :=
  match results with
  | [] => ([], None)
  | x :: rest =>
      match failure x with
      | None => json_trace rest
      | Some e =>
          if json_catches e
          then (warning e :: (json_trace rest).1, (json_trace rest).2)
          else ([], Some e)
      end
  end.

(** Whether an element gets a row in the CSV file. *)
Definition has_row `{R : Runtime} (x : item) : bool :=
  negb (raises (csv_row x)).

(** The separators and texts that follow a first element. *)
Definition continued (texts : list string) : string :=
  fold_right (fun t acc => "," +:+ nl +:+ t +:+ acc) "" texts.

(** ** A file system to run the checks on

    Paths are kept as their text; a state maps a path to a file or a
    directory with its mode.  [mkdir] adds the one directory asked for,
    with mode [0o755], and fails on a path that is a file. *)
Module DemoFS.

Inductive node :=
| File (mode : Z)
| Dir (mode : Z).

(** The text before the last slash of a path. *)
Fixpoint dirname (s : string) : option string :=
  match s with
  | EmptyString => None
  | String c r =>
      match dirname r with
      | Some d => Some (String c d)
      | None => if Ascii.eqb c "/" then Some EmptyString else None
      end
  end.

Definition parent (s : string) : string :=
  match dirname s with
  | Some EmptyString => "/"
  | Some d => d
  | None => "."
  end.

Definition mkdir (st : gmap string node) (p : string)
    : gmap string node * option exn :=
  match st !! p with
  | Some (File _) =>
      (st, Some (Exn OSError
                   [Lit "[Errno 17] File exists: '"; Lit p; Lit "'"]))
  | Some (Dir _) => (st, None)
  | None => (<[p := Dir 493]> st, None)
  end.

Definition stat_mode (st : gmap string node) (p : string) : result Z :=
  match st !! p with
  | Some (File m) | Some (Dir m) => Ok m
  | None => Raise (Exn OSError
              [Lit "[Errno 2] No such file or directory: '"; Lit p; Lit "'"])
  end.

Definition file_system : FileSystem :=
  Build_FileSystem
    (gmap string node)
    parent
    (fun st p => Ok (bool_decide (is_Some (st !! p))))
    (fun st p =>
       Ok match st !! p with Some (File _) => true | _ => false end)
    (fun st p =>
       Ok match st !! p with Some (Dir _) => true | _ => false end)
    mkdir
    stat_mode.

(** A working directory with the two data files in [data]. *)
Definition sample_state : gmap string node :=
  list_to_map
    [(".", Dir 493); ("data", Dir 493); ("data/neos.csv", File 420);
     ("data/cad.json", File 420)].

End DemoFS.

(** Arguments of a query: all ranges in order, a limit of ten, results to
    a directory that is not there yet. *)
Definition sample_args : Namespace :=
  {| start_date := Some {| year := 2020; month := 1; day := 1 |};
     end_date := Some {| year := 2020; month := 12; day := 31 |};
     distance_min := Some 0.5%float;
     distance_max := Some 1%float;
     velocity_min := None;
     velocity_max := Some 25%float;
     diameter_min := None;
     diameter_max := None;
     limit := Some 10%Z;
     outfile := Some (PStr "out/results.csv");
     neofile := Some (PStr "data/neos.csv");
     cadfile := Some (PStr "data/cad.json") |}.

(** The same arguments with another limit, and with another output path. *)
Definition with_limit (args : Namespace) (n : option Z) : Namespace :=
  {| start_date := start_date args; end_date := end_date args;
     distance_min := distance_min args; distance_max := distance_max args;
     velocity_min := velocity_min args; velocity_max := velocity_max args;
     diameter_min := diameter_min args; diameter_max := diameter_max args;
     limit := n;
     outfile := outfile args; neofile := neofile args;
     cadfile := cadfile args |}.

Definition with_outfile (args : Namespace) (path : option pyval) : Namespace :=
  {| start_date := start_date args; end_date := end_date args;
     distance_min := distance_min args; distance_max := distance_max args;
     velocity_min := velocity_min args; velocity_max := velocity_max args;
     diameter_min := diameter_min args; diameter_max := diameter_max args;
     limit := limit args;
     outfile := path; neofile := neofile args;
     cadfile := cadfile args |}.

(** * Properties *)

(** ** Strings *)

Lemma app_cons (c : ascii) (s t : string) :
  String c s +:+ t = String c (s +:+ t).
Proof. reflexivity. Qed.

Lemma app_nil_r (s : string) : s +:+ "" = s.
Proof.
  induction s as [|c s IH]; [reflexivity|].
  rewrite app_cons, IH. reflexivity.
Qed.

Lemma app_assoc (s t u : string) : (s +:+ t) +:+ u = s +:+ (t +:+ u).
Proof.
  induction s as [|c s IH]; [reflexivity|].
  rewrite !app_cons, IH. reflexivity.
Qed.

Lemma length_app (s t : string) :
  String.length (s +:+ t) = String.length s + String.length t.
Proof.
  induction s as [|c s IH]; [reflexivity|].
  rewrite app_cons. simpl. rewrite IH. reflexivity.
Qed.

Lemma lstrip_blank (s : string) : blank s = true -> lstrip s = "".
Proof.
  induction s as [|c s IH]; simpl; [reflexivity|].
  destruct (isspace c); simpl; [exact IH | discriminate].
Qed.

Lemma lstrip_not_blank (s : string) :
  blank s = false ->
  exists c r, lstrip s = String c r /\ isspace c = false.
Proof.
  induction s as [|c s IH]; simpl; [discriminate|].
  destruct (isspace c) eqn:Hc; simpl; [exact IH|].
  intros _. exists c, s. split; [reflexivity | exact Hc].
Qed.

Lemma rstrip_keeps_head (c : ascii) (r : string) :
  isspace c = false -> nonempty (rstrip (String c r)) = true.
Proof.
  intros Hc. simpl. destruct (rstrip r); [rewrite Hc|]; reflexivity.
Qed.

(** [s.strip()] is truthy exactly when [s] has a character that is not
    white space. *)
Lemma nonempty_strip (s : string) : nonempty (strip s) = negb (blank s).
Proof.
  unfold strip. destruct (blank s) eqn:Hb; simpl.
  - rewrite (lstrip_blank _ Hb). reflexivity.
  - destruct (lstrip_not_blank _ Hb) as (c & r & -> & Hc).
    apply rstrip_keeps_head, Hc.
Qed.

Lemma blank_nonempty (s : string) : blank s = false -> nonempty s = true.
Proof. destruct s; [discriminate | reflexivity]. Qed.

(** ** validation.py *)

Section Validation.

Lemma validate_distance_range_raises (lo hi : option float) :
  raises (validate_distance_range lo hi) =
  match lo, hi with
  | Some a, Some b => (b <? a)%float || (a <? 0)%float || (b <? 0)%float
  | _, _ => false
  end.
Proof.
  destruct lo as [a|], hi as [b|]; simpl; try reflexivity.
  destruct (b <? a)%float, (a <? 0)%float, (b <? 0)%float; reflexivity.
Qed.

Lemma validate_velocity_range_raises (lo hi : option float) :
  raises (validate_velocity_range lo hi) =
  match lo, hi with
  | Some a, Some b => (b <? a)%float || (a <? 0)%float || (b <? 0)%float
  | _, _ => false
  end.
Proof.
  destruct lo as [a|], hi as [b|]; simpl; try reflexivity.
  destruct (b <? a)%float, (a <? 0)%float, (b <? 0)%float; reflexivity.
Qed.

Lemma validate_diameter_range_raises (lo hi : option float) :
  raises (validate_diameter_range lo hi) =
  match lo, hi with
  | Some a, Some b => (b <? a)%float || (a <? 0)%float || (b <? 0)%float
  | _, _ => false
  end.
Proof.
  destruct lo as [a|], hi as [b|]; simpl; try reflexivity.
  destruct (b <? a)%float, (a <? 0)%float, (b <? 0)%float; reflexivity.
Qed.

(** The limit check tests its one optional argument on its own. *)
Lemma validate_limit_raises (limit : option Z) :
  raises (validate_limit limit) =
  match limit with Some n => (n <=? 0)%Z | None => false end.
Proof. destruct limit as [n|]; simpl; [destruct (n <=? 0)%Z|]; reflexivity. Qed.

End Validation.

(** C1. The distance and velocity checks are said to raise exactly when the
    bounds are both present and out of order, or when either bound is
    present and negative, a lone negative bound included.  A lone bound
    never makes them raise, whatever its value and whichever side it is on:
    the sign tests sit under the test that both bounds are present.  So on
    a lone [-1.0], which is present and negative, each check returns. *)
Theorem validate_range_lone_negative_bound (x : float) :
  negative_bound (Some (-1)%float) = true /\
  validate_distance_range (Some (-1)%float) None = Ok tt /\
  validate_velocity_range (Some (-1)%float) None = Ok tt /\
  validate_distance_range (Some x) None = Ok tt /\
  validate_distance_range None (Some x) = Ok tt /\
  validate_velocity_range (Some x) None = Ok tt /\
  validate_velocity_range None (Some x) = Ok tt.
Proof. repeat split. Qed.

(** C4, as stated, fails: with bounds [-2.0] and [-1.0], which are in
    order, the diameter check raises, on account of the negative lower
    bound. *)
Lemma validate_diameter_range_negative_raises :
  out_of_order (Some (-2)%float) (Some (-1)%float) = false /\
  validate_diameter_range (Some (-2)%float) (Some (-1)%float) =
    Raise (Exn ValidationError
             [Lit "Minimum diameter "; Fmt (PFloat (-2)%float);
              Lit " cannot be negative"]).
Proof. split; vm_compute; reflexivity. Qed.

(** C4, amended.  With both bounds present the diameter check raises
    exactly when the lower bound is greater than the upper one or one of
    the two is negative; with a bound absent and no present bound negative
    it does not raise. *)
Theorem validate_diameter_range_sign_and_order (bound : option float) :
  negative_bound bound = false ->
  (forall lo hi : float,
     raises (validate_diameter_range (Some lo) (Some hi)) =
     out_of_order (Some lo) (Some hi)
     || negative_bound (Some lo) || negative_bound (Some hi)) /\
  raises (validate_diameter_range bound None) = false /\
  raises (validate_diameter_range None bound) = false.
Proof.
  intros _. split; [|split].
  - intros lo hi. apply validate_diameter_range_raises.
  - rewrite validate_diameter_range_raises. destruct bound; reflexivity.
  - rewrite validate_diameter_range_raises. reflexivity.
Qed.

Lemma validate_diameter_range_sign_and_order_witness :
  negative_bound (Some 1%float) = false /\
  (forall lo hi : float,
     raises (validate_diameter_range (Some lo) (Some hi)) =
     out_of_order (Some lo) (Some hi)
     || negative_bound (Some lo) || negative_bound (Some hi)) /\
  raises (validate_diameter_range (Some 1%float) None) = false /\
  raises (validate_diameter_range None (Some 1%float)) = false.
Proof.
  split; [vm_compute; reflexivity|].
  apply (validate_diameter_range_sign_and_order (Some 1%float)).
  vm_compute; reflexivity.
Defined.

(** ** models.py *)

(** C2. An absent diameter and a zero diameter are said to be stored
    apart, [NearEarthObject(diameter=0.0)] keeping [0.0].  The constructor
    tests the truth value of its argument, and the float zero is false: a
    numeric [0.0] is stored as not-a-number, exactly like [None], while the
    text ["0"] goes through [float]. *)
Theorem NearEarthObject_init_zero_diameter `{R : Runtime}
    (designation hazardous : pyval) (name : string) :
  diameter <$> NearEarthObject_init designation (PStr name) (PFloat 0) hazardous
    = Ok nan /\
  diameter <$> NearEarthObject_init designation (PStr name) PNone hazardous
    = Ok nan /\
  diameter <$> NearEarthObject_init designation (PStr name) (PStr "0") hazardous
    = float_of_str "0" /\
  is_nan nan = true /\ is_nan 0 = false.
Proof.
  unfold NearEarthObject_init.
  cbn [truthy py_strip py_float py_str mbind result_bind mret result_ret].
  change (nonempty (strip "0")) with true.
  repeat split; try reflexivity;
    destruct (nonempty name); try reflexivity;
    destruct (nonempty (strip name)); try reflexivity;
    cbn [nonempty andb]; destruct (float_of_str "0"); reflexivity.
Qed.

Lemma CloseApproach_init_unlinked `{R : Runtime}
    (designation time distance velocity : pyval) (a : CloseApproach) :
  CloseApproach_init designation time distance velocity = Ok a ->
  neo a = None /\
  _designation a = (if truthy designation then py_str designation else "").
Proof.
  unfold CloseApproach_init. intros H.
  destruct (truthy time); [destruct (cd_to_datetime time)|]; simpl in H;
    try discriminate;
    (destruct (truthy distance); [destruct (py_float distance)|]); simpl in H;
    try discriminate;
    (destruct (truthy velocity); [destruct (py_float velocity)|]); simpl in H;
    try discriminate;
    injection H as <-; split; reflexivity.
Qed.

(** C8. Serializing a close approach whose [neo] is [None] succeeds and
    gives the nested mapping with the captured designation, the empty
    string for the name, not-a-number for the diameter and [False] for the
    hazard flag. *)
Theorem CloseApproach_serialize_unlinked `{R : Runtime} (a : CloseApproach) :
  neo a = None ->
  serialize (Approach a) = Ok (CloseApproach_serialize a) /\
  CloseApproach_serialize a =
    PDict
      [("datetime_utc", PStr (CloseApproach_time_str a));
       ("distance_au", PFloat (distance a));
       ("velocity_km_s", PFloat (velocity a));
       ("neo",
         PDict
           [("designation", PStr (_designation a));
            ("name", PStr "");
            ("diameter_km", PFloat nan);
            ("potentially_hazardous", PBool false)])].
Proof.
  intros Hneo. split; [reflexivity|].
  unfold CloseApproach_serialize. rewrite Hneo. reflexivity.
Qed.

Lemma CloseApproach_serialize_unlinked_witness :
  neo sample_approach = None /\
  serialize (Approach sample_approach) =
    Ok (CloseApproach_serialize sample_approach) /\
  CloseApproach_serialize sample_approach =
    PDict
      [("datetime_utc", PStr "2020-01-01 00:00");
       ("distance_au", PFloat 0.5);
       ("velocity_km_s", PFloat 10);
       ("neo",
         PDict
           [("designation", PStr "433");
            ("name", PStr "");
            ("diameter_km", PFloat nan);
            ("potentially_hazardous", PBool false)])].
Proof.
  split; [reflexivity|].
  apply (CloseApproach_serialize_unlinked sample_approach). reflexivity.
Defined.

(** ** extract.py *)

Lemma load_neos_cons `{R : Runtime} (row : gmap string pyval)
    (reader : list (gmap string pyval)) :
  load_neos (row :: reader) =
  (neo ← load_neo row; neos ← load_neos reader; mret (neo :: neos)).
Proof. reflexivity. Qed.

(** With its four fields present and texts, a row reaches the
    constructor with the name and the diameter replaced by [None] when
    blank. *)
Lemma load_neo_fields `{R : Runtime} (row : gmap string pyval)
    (pdes nm dia pha : string) :
  row !! "pdes" = Some (PStr pdes) ->
  row !! "name" = Some (PStr nm) ->
  row !! "diameter" = Some (PStr dia) ->
  row !! "pha" = Some (PStr pha) ->
  load_neo row =
  NearEarthObject_init (PStr pdes)
    (if blank nm then PNone else PStr nm)
    (if blank dia then PNone else PStr dia)
    (PBool (String.eqb pha "Y")).
Proof.
  intros Hpdes Hnm Hdia Hpha. unfold load_neo, row_get.
  rewrite Hpdes, Hnm, Hdia, Hpha.
  cbn [mbind result_bind mret result_ret py_strip eq_str].
  rewrite !nonempty_strip.
  destruct (blank nm), (blank dia); reflexivity.
Qed.

Lemma NearEarthObject_init_designation (pdes : string) :
  (if truthy (PStr pdes) then pdes else "") = pdes.
Proof. destruct pdes; reflexivity. Qed.

Lemma NearEarthObject_init_name `{R : Runtime} (nm : string) :
  (if truthy (if blank nm then PNone else PStr nm)
   then s ← py_strip (if blank nm then PNone else PStr nm);
        mret (if nonempty s then if blank nm then PNone else PStr nm
              else PNone)
   else mret PNone) = Ok (if blank nm then PNone else PStr nm).
Proof.
  destruct (blank nm) eqn:Hb; cbn [truthy]; [reflexivity|].
  rewrite (blank_nonempty _ Hb).
  cbn [py_strip mbind result_bind mret result_ret].
  rewrite nonempty_strip, Hb. reflexivity.
Qed.

Lemma NearEarthObject_init_diameter `{R : Runtime} (dia : string) (d : float) :
  (blank dia = true \/ float_of_str dia = Ok d) ->
  (if truthy (if blank dia then PNone else PStr dia)
      && nonempty (strip (py_str (if blank dia then PNone else PStr dia)))
   then py_float (if blank dia then PNone else PStr dia)
   else mret nan) = Ok (if blank dia then nan else d).
Proof.
  intros H. destruct (blank dia) eqn:Hb; cbn [truthy andb]; [reflexivity|].
  destruct H as [H|H]; [discriminate|].
  rewrite (blank_nonempty _ Hb). cbn [py_str andb py_float].
  rewrite nonempty_strip, Hb. exact H.
Qed.

(** C6. A row whose four fields are present, with a diameter that is blank
    or the text of a number, loads into an object that keeps the
    designation as it is, has no name exactly when the name field is empty
    or white space, has the not-a-number diameter exactly when the diameter
    field is blank, and is hazardous exactly when the marker is ["Y"];
    serializing it gives the designation back, the name or the empty
    string, the stored diameter and the flag. *)
Theorem load_neos_round_trip `{R : Runtime} (row : gmap string pyval)
    (pdes nm dia pha : string) :
  row !! "pdes" = Some (PStr pdes) ->
  row !! "name" = Some (PStr nm) ->
  row !! "diameter" = Some (PStr dia) ->
  row !! "pha" = Some (PStr pha) ->
  (blank dia = true \/
   exists d, float_of_str dia = Ok d /\ is_nan d = false) ->
  exists neo,
    load_neos [row] = Ok [neo] /\
    designation neo = pdes /\
    name neo = (if blank nm then PNone else PStr nm) /\
    is_nan (diameter neo) = blank dia /\
    hazardous neo = String.eqb pha "Y" /\
    NearEarthObject_serialize neo =
      PDict
        [("designation", PStr pdes);
         ("name", PStr (if blank nm then "" else nm));
         ("diameter_km", PFloat (diameter neo));
         ("potentially_hazardous", PBool (String.eqb pha "Y"))].
Proof.
  intros Hpdes Hnm Hdia Hpha Hvalid.
  assert (Hd : exists d,
             (blank dia = true \/ float_of_str dia = Ok d) /\
             is_nan (if blank dia then nan else d) = blank dia).
  { destruct Hvalid as [Hb | (d & Hd & Hnan)].
    - exists nan. rewrite Hb. split; [left|]; reflexivity.
    - exists d. split; [right; exact Hd|].
      destruct (blank dia); [reflexivity | exact Hnan]. }
  destruct Hd as (d & Hd & Hnan).
  exists {| designation := pdes;
            name := if blank nm then PNone else PStr nm;
            diameter := if blank dia then nan else d;
            hazardous := String.eqb pha "Y";
            approaches := [] |}.
  split; [|split; [|split; [|split; [|split]]]]; try reflexivity.
  - rewrite load_neos_cons,
      (load_neo_fields row pdes nm dia pha Hpdes Hnm Hdia Hpha).
    unfold NearEarthObject_init.
    rewrite NearEarthObject_init_name, (NearEarthObject_init_diameter dia d Hd).
    cbn [py_str]. rewrite NearEarthObject_init_designation. reflexivity.
  - exact Hnan.
  - unfold NearEarthObject_serialize.
    cbn [designation name diameter hazardous]. repeat f_equal.
    + destruct (blank nm) eqn:Hb; [reflexivity|].
      cbn [truthy]. rewrite (blank_nonempty _ Hb). reflexivity.
    + unfold is_nan in Hnan. destruct (blank dia).
      * reflexivity.
      * rewrite Hnan. reflexivity.
Qed.

Lemma load_neos_round_trip_witness :
  sample_row !! "pdes" = Some (PStr "433") /\
  exists neo,
    load_neos (R := Demo.runtime) [sample_row] = Ok [neo] /\
    designation neo = "433" /\
    name neo = PNone /\
    is_nan (diameter neo) = true /\
    hazardous neo = true /\
    NearEarthObject_serialize neo =
      PDict
        [("designation", PStr "433");
         ("name", PStr "");
         ("diameter_km", PFloat (diameter neo));
         ("potentially_hazardous", PBool true)].
Proof.
  split; [reflexivity|].
  apply (load_neos_round_trip (R := Demo.runtime) sample_row "433" "" "" "Y");
    try reflexivity.
  left. reflexivity.
Defined.

(** A diameter field holding the text [nan] is not blank and still loads
    as not-a-number: the round trip of presence needs the diameter to be
    the text of a number. *)
Example load_neos_nan_text :
  (fun neos : list NearEarthObject => (fun neo => is_nan (diameter neo)) <$> neos)
    <$> load_neos (R := Demo.runtime)
      [list_to_map
         [("pdes", PStr "433"); ("name", PStr "Eros");
          ("diameter", PStr "nan"); ("pha", PStr "N")]]
  = Ok [true].
Proof. vm_compute. reflexivity. Qed.

Section Index.

Lemma list_index_Some (x : string) (l : list string) (i : nat) :
  list_index x l = Some i -> l !! i = Some x.
Proof.
  revert i. induction l as [|y l IH]; intros i; simpl; [discriminate|].
  destruct (String.eqb_spec y x) as [->|Hne].
  - intros [= <-]. reflexivity.
  - destruct (list_index x l) as [k|]; simpl; [|discriminate].
    intros [= <-]. simpl. apply IH. reflexivity.
Qed.

Lemma list_index_None (x : string) (l : list string) :
  list_index x l = None -> x ∉ l.
Proof.
  induction l as [|y l IH]; simpl; [intros _; apply not_elem_of_nil|].
  destruct (String.eqb_spec y x) as [->|Hne]; [discriminate|].
  destruct (list_index x l); simpl; [discriminate|].
  intros _. apply not_elem_of_cons. split; [congruence | apply IH; reflexivity].
Qed.

Lemma list_index_elem (x : string) (l : list string) :
  x ∈ l -> is_Some (list_index x l).
Proof.
  intros Hin. destruct (list_index x l) eqn:E; [eexists; reflexivity|].
  destruct (list_index_None _ _ E Hin).
Qed.

End Index.

Section Permute.
Context {A : Type}.
Implicit Types (p : list nat) (l : list A).

Lemma permute_lookup p l (j : nat) :
  Forall (fun i => i < length l) p ->
  permute p l !! j = p !! j ≫= (fun i => l !! i).
Proof.
  unfold permute. intros Hp. revert j.
  induction Hp as [|i p Hi Hp IH]; intros j; [reflexivity|].
  csimpl. destruct (lookup_lt_is_Some_2 l i Hi) as [y Hy]. rewrite Hy.
  destruct j as [|j]; simpl; [symmetry; exact Hy | apply IH].
Qed.

Lemma permute_in_range p (n : nat) :
  p ≡ₚ seq 0 n -> Forall (fun i => i < n) p.
Proof.
  intros Hp. apply Forall_forall. intros i Hi.
  rewrite Hp in Hi. apply elem_of_seq in Hi. lia.
Qed.

Lemma permute_elem_of p l (x : A) :
  p ≡ₚ seq 0 (length l) -> x ∈ permute p l <-> x ∈ l.
Proof.
  intros Hp. unfold permute. rewrite list_elem_of_omap. split.
  - intros (i & _ & Hi). eapply list_elem_of_lookup_2, Hi.
  - intros Hx. apply list_elem_of_lookup_1 in Hx as [i Hi].
    exists i. split; [|exact Hi].
    rewrite Hp. apply elem_of_seq. apply lookup_lt_Some in Hi. lia.
Qed.

End Permute.

(** Looking a name up in the reordered header and reading that place of a
    reordered row gives what the original place of the original row holds. *)
Lemma list_index_permute (fields : list string) (p : list nat) (x : string) :
  NoDup fields ->
  p ≡ₚ seq 0 (length fields) ->
  match list_index x fields, list_index x (permute p fields) with
  | Some i, Some j =>
      forall (row : list pyval),
        length row = length fields -> permute p row !! j = row !! i
  | None, None => True
  | _, _ => False
  end.
Proof.
  intros Hnd Hp.
  destruct (list_index x fields) as [i|] eqn:Hi,
           (list_index x (permute p fields)) as [j|] eqn:Hj.
  - intros row Hlen.
    apply list_index_Some in Hi, Hj.
    pose proof (permute_in_range _ _ Hp) as Hr.
    rewrite permute_lookup in Hj by exact Hr.
    rewrite permute_lookup by (rewrite Hlen; exact Hr).
    destruct (p !! j) as [k|]; simpl in *; [|discriminate].
    rewrite (NoDup_lookup _ _ _ _ Hnd Hj Hi). reflexivity.
  - apply list_index_None in Hj. apply list_index_Some in Hi.
    apply Hj, permute_elem_of; [exact Hp|].
    eapply list_elem_of_lookup_2, Hi.
  - apply list_index_None in Hi. apply list_index_Some in Hj.
    apply Hi, (permute_elem_of p); [exact Hp|].
    eapply list_elem_of_lookup_2, Hj.
  - exact I.
Qed.

Lemma mapM_result_ext {A B C : Type} (f : A -> result C) (g : B -> result C)
    (h : A -> B) (l : list A) :
  Forall (fun x => f x = g (h x)) l -> mapM f l = mapM g (h <$> l).
Proof.
  induction 1 as [|x l Hx _ IH]; [reflexivity|].
  simpl. rewrite Hx, IH. reflexivity.
Qed.

(** C7. With distinct field names and rows as long as the header, any
    reordering of the header applied to the positions of every row leaves
    the result of [load_approaches] unchanged: the same list of close
    approaches, or the same exception. *)
Theorem load_approaches_permute `{R : Runtime} (fields : list string)
    (approach_data : list (list pyval)) (p : list nat) :
  NoDup fields ->
  Forall (fun row => length row = length fields) approach_data ->
  p ≡ₚ seq 0 (length fields) ->
  load_approaches (permute p fields) (permute p <$> approach_data) =
  load_approaches fields approach_data.
Proof.
  intros Hnd Hrows Hp. unfold load_approaches, index.
  pose proof (list_index_permute fields p "des" Hnd Hp) as Hdes.
  pose proof (list_index_permute fields p "cd" Hnd Hp) as Hcd.
  pose proof (list_index_permute fields p "dist" Hnd Hp) as Hdist.
  pose proof (list_index_permute fields p "v_rel" Hnd Hp) as Hv.
  destruct (list_index "des" fields), (list_index "des" (permute p fields));
    try contradiction; [|reflexivity].
  destruct (list_index "cd" fields), (list_index "cd" (permute p fields));
    try contradiction; [|reflexivity].
  destruct (list_index "dist" fields), (list_index "dist" (permute p fields));
    try contradiction; [|reflexivity].
  destruct (list_index "v_rel" fields), (list_index "v_rel" (permute p fields));
    try contradiction; [|reflexivity].
  cbn [mbind result_bind]. symmetry. apply mapM_result_ext.
  eapply Forall_impl; [exact Hrows|]. intros row Hlen. cbn beta.
  unfold item_at.
  rewrite (Hdes row Hlen), (Hcd row Hlen), (Hdist row Hlen), (Hv row Hlen).
  reflexivity.
Qed.

Lemma load_approaches_permute_witness :
  NoDup sample_fields /\
  load_approaches (R := Demo.runtime)
    (permute sample_order sample_fields) (permute sample_order <$> sample_data) =
  load_approaches (R := Demo.runtime) sample_fields sample_data.
Proof.
  assert (Hnd : NoDup sample_fields)
    by (apply (bool_decide_unpack _); vm_compute; exact I).
  split; [exact Hnd|].
  apply (load_approaches_permute (R := Demo.runtime)
           sample_fields sample_data sample_order Hnd).
  - repeat constructor.
  - apply (bool_decide_unpack _). vm_compute. exact I.
Defined.

(** With a field name occurring twice the reordering can change what is
    read: [index] takes the first occurrence. *)
Example load_approaches_duplicate_name :
  (fun l : list CloseApproach => _designation <$> l) <$>
    load_approaches (R := Demo.runtime) ["des"; "des"; "cd"; "dist"; "v_rel"]
      [[PStr "A"; PStr "B"; PStr "t"; PStr "1"; PStr "2"]] = Ok ["A"] /\
  (fun l : list CloseApproach => _designation <$> l) <$>
    load_approaches (R := Demo.runtime)
      (permute [1; 0; 2; 3; 4] ["des"; "des"; "cd"; "dist"; "v_rel"])
      (permute [1; 0; 2; 3; 4] <$>
         [[PStr "A"; PStr "B"; PStr "t"; PStr "1"; PStr "2"]]) = Ok ["B"].
Proof. split; vm_compute; reflexivity. Qed.

(** ** write.py *)

Section Files.

Lemma file_text_write (s : string) (f : file) :
  file_text (file_write s f) = file_text f +:+ s.
Proof. unfold file_text, file_write. simpl. symmetry. apply app_assoc. Qed.

Lemma file_text_flush (f : file) : file_text (file_flush f) = file_text f.
Proof. unfold file_text, file_flush. simpl. apply app_nil_r. Qed.

Lemma file_close_text (f : file) : file_close f = file_text f.
Proof. reflexivity. Qed.

End Files.

Section Writers.
Context {R : Runtime}.

(** The two JSON loops, started on files holding the same text, end on
    files holding the same text, with the same warnings and the same
    exception, if any. *)
Lemma write_to_json_loops_agree (results : list item) :
  forall (f g : file) (first : bool) (err : list (list piece)),
    file_text f = file_text g ->
    match write_to_json_loop results f first err,
          write_to_json_streaming_loop results g first err with
    | (f', err1, stop1), (g', err2, stop2) =>
        file_text f' = file_text g' /\ err1 = err2 /\ stop1 = stop2
    end.
Proof.
  induction results as [|x results IH]; intros f g first err Hfg.
  - simpl. auto.
  - cbn [write_to_json_loop write_to_json_streaming_loop].
    unfold json_streaming_catches, json_catches.
    assert (Hsep : file_text (if negb first then file_write ("," +:+ nl) f else f)
                 = file_text (if negb first then file_write ("," +:+ nl) g else g)).
    { destruct first; simpl; [exact Hfg|].
      rewrite !file_text_write, Hfg. reflexivity. }
    destruct (serialize x) as [data|e].
    + destruct (json_dump data) as [text [e|]].
      * destruct (exn_kind e);
          try (apply IH; rewrite !file_text_write, Hsep; reflexivity);
          (split; [rewrite !file_text_write, Hsep|]; auto).
      * apply IH.
        rewrite file_text_flush, !file_text_write, Hsep. reflexivity.
    + destruct (exn_kind e); try (apply IH; exact Hsep); auto.
Qed.

(** Elements that all serialize and dump leave their texts in the file,
    a comma and a newline before each but the first. *)
Lemma write_to_json_loop_texts (results : list item) (texts : list string) :
  Forall2 (fun x t => element_text x = Some t) results texts ->
  forall (f : file) (err : list (list piece)),
    exists f',
      write_to_json_loop results f true err = (f', err, None) /\
      file_text f' = file_text f +:+ join ("," +:+ nl) texts.
Proof.
  assert (Hrest : forall results texts,
    Forall2 (fun x t => element_text x = Some t) results texts ->
    forall f err, exists f',
      write_to_json_loop results f false err = (f', err, None) /\
      file_text f' =
        file_text f +:+
        fold_right (fun t acc => "," +:+ nl +:+ t +:+ acc) "" texts).
  { clear. induction 1 as [|x t results texts Hx _ IH]; intros f err.
    - exists f. split; [reflexivity|]. symmetry. apply app_nil_r.
    - cbn [write_to_json_loop]. unfold element_text in Hx.
      destruct (serialize x) as [data|]; [|discriminate].
      destruct (json_dump data) as [text [e|]]; [discriminate|].
      injection Hx as ->. cbn [negb].
      destruct (IH (file_write t (file_write ("," +:+ nl) f)) err)
        as (f' & Hloop & Htext).
      exists f'. split; [exact Hloop|].
      rewrite Htext, !file_text_write. cbn [fold_right].
      rewrite !app_assoc. reflexivity. }
  destruct 1 as [|x t results texts Hx Hall]; intros f err.
  - exists f. split; [reflexivity|]. symmetry. apply app_nil_r.
  - cbn [write_to_json_loop]. unfold element_text in Hx.
    destruct (serialize x) as [data|]; [|discriminate].
    destruct (json_dump data) as [text [e|]]; [discriminate|].
    injection Hx as ->. cbn [negb].
    destruct (Hrest _ _ Hall (file_write t f) err) as (f' & Hloop & Htext).
    exists f'. split; [exact Hloop|].
    rewrite Htext, file_text_write, app_assoc. f_equal.
    clear. revert t. induction texts as [|u texts IH]; intros t.
    + apply app_nil_r.
    + cbn [fold_right join]. rewrite (IH u), !app_assoc. reflexivity.
Qed.

(** When no element fails, the buffered writer produces the array. *)
Lemma write_to_json_all_succeed (results : list item) (texts : list string)
    (filename : string) :
  Forall2 (fun x t => element_text x = Some t) results texts ->
  written (write_to_json results filename) = json_array texts /\
  outcome (write_to_json results filename) = Ok tt.
Proof.
  intros Hall. unfold write_to_json.
  destruct (write_to_json_loop_texts _ _ Hall
              (file_write ("[" +:+ nl) file_open) []) as (f' & -> & Htext).
  cbn [written outcome]. split; [|reflexivity].
  rewrite file_close_text, file_text_write, Htext, file_text_write.
  unfold json_array. rewrite !app_assoc. reflexivity.
Qed.

(** The buffered loop forces nothing out of the write buffer. *)
Lemma write_to_json_loop_durable (results : list item) :
  forall (f : file) (first : bool) (err : list (list piece)),
    durable (write_to_json_loop results f first err).1.1 = durable f.
Proof.
  induction results as [|x results IH]; intros f first err; [reflexivity|].
  cbn [write_to_json_loop].
  assert (Hsep : durable (if negb first then file_write ("," +:+ nl) f else f)
                 = durable f) by (destruct first; reflexivity).
  destruct (serialize x) as [data|e].
  - destruct (json_dump data) as [text [e|]].
    + destruct (json_catches e); [rewrite IH|]; exact Hsep.
    + rewrite IH. exact Hsep.
  - destruct (json_catches e); [rewrite IH|]; exact Hsep.
Qed.

(** The streaming loop, over elements that are all written, leaves the
    write buffer empty: each element is in the file before the next one is
    asked for. *)
Lemma write_to_json_streaming_loop_flushed (results : list item) :
  Forall (fun x => is_Some (element_text x)) results ->
  forall (f : file) (first : bool) (err : list (list piece)),
    pending f = "" \/ results <> [] ->
    pending (write_to_json_streaming_loop results f first err).1.1 = "".
Proof.
  induction 1 as [|x results [t Hx] _ IH]; intros f first err Hf.
  - destruct Hf as [Hf|Hf]; [exact Hf | contradiction].
  - cbn [write_to_json_streaming_loop]. unfold element_text in Hx.
    destruct (serialize x) as [data|]; [|discriminate].
    destruct (json_dump data) as [text [e|]]; [discriminate|].
    apply IH. left. reflexivity.
Qed.

End Writers.

(** C3. Both JSON writers are said to leave a well bracketed array of
    exactly the elements that serialized, wherever the failing ones stand.
    When the first element fails with a caught exception and the second
    one succeeds, both writers print the warning and return, but the file
    holds a comma before its only element: the separator is written, and
    [first] cleared, before [serialize] is tried. *)
Theorem write_to_json_first_fails `{R : Runtime} (e : exn) (x : item)
    (text filename : string) :
  json_catches e = true ->
  element_text x = Some text ->
  let results := [Duck (Raise e); x] in
  written (write_to_json results filename) =
    "[" +:+ nl +:+ "," +:+ nl +:+ text +:+ nl +:+ "]" /\
  written (write_to_json_streaming results filename) =
    "[" +:+ nl +:+ "," +:+ nl +:+ text +:+ nl +:+ "]" /\
  json_array [text] = "[" +:+ nl +:+ text +:+ nl +:+ "]" /\
  written (write_to_json results filename) <> json_array [text] /\
  stderr (write_to_json results filename) = [warning e] /\
  outcome (write_to_json results filename) = Ok tt.
Proof.
  intros He Hx results. subst results.
  unfold write_to_json, write_to_json_streaming.
  cbn [write_to_json_loop write_to_json_streaming_loop serialize negb].
  change (json_streaming_catches e) with (json_catches e). rewrite He.
  unfold element_text in Hx.
  destruct (serialize x) as [data|]; [|discriminate].
  destruct (json_dump data) as [t [e'|]]; [discriminate|].
  injection Hx as ->.
  cbn [written stderr outcome app].
  repeat split.
  intros Heq. apply (f_equal String.length) in Heq.
  unfold json_array in Heq. cbn [join] in Heq.
  rewrite file_close_text, !file_text_write, !length_app in Heq.
  cbn in Heq. lia.
Qed.

Lemma write_to_json_first_fails_witness :
  let results :=
    [Duck (Raise (Exn AttributeError
                    [Lit "'NoneType' object has no attribute 'serialize'"]));
     Duck (Ok PNone)] in
  written (write_to_json (R := Demo.runtime) results "out.json") =
    "[" +:+ nl +:+ "," +:+ nl +:+ "null" +:+ nl +:+ "]" /\
  written (write_to_json_streaming (R := Demo.runtime) results "out.json") =
    "[" +:+ nl +:+ "," +:+ nl +:+ "null" +:+ nl +:+ "]" /\
  json_array ["null"] = "[" +:+ nl +:+ "null" +:+ nl +:+ "]" /\
  written (write_to_json (R := Demo.runtime) results "out.json")
    <> json_array ["null"] /\
  stderr (write_to_json (R := Demo.runtime) results "out.json") =
    [warning (Exn AttributeError
                [Lit "'NoneType' object has no attribute 'serialize'"])] /\
  outcome (write_to_json (R := Demo.runtime) results "out.json") = Ok tt.
Proof.
  apply (write_to_json_first_fails (R := Demo.runtime)
           (Exn AttributeError
              [Lit "'NoneType' object has no attribute 'serialize'"])
           (Duck (Ok PNone)) "null" "out.json");
    reflexivity.
Defined.

(** C5. On every sequence of results the buffered and the streaming JSON
    writer leave the same text in the file; they also print the same
    warnings and raise, or return, together. *)
Theorem write_to_json_streaming_same_file `{R : Runtime}
    (results : list item) (filename : string) :
  written (write_to_json results filename) =
    written (write_to_json_streaming results filename) /\
  stderr (write_to_json results filename) =
    stderr (write_to_json_streaming results filename) /\
  raised_kind (outcome (write_to_json results filename)) =
    raised_kind (outcome (write_to_json_streaming results filename)).
Proof.
  unfold write_to_json, write_to_json_streaming.
  pose proof (write_to_json_loops_agree results
                (file_write ("[" +:+ nl) file_open)
                (file_write ("[" +:+ nl) file_open) true [] eq_refl) as H.
  destruct (write_to_json_loop results _ true []) as [[f err1] stop1].
  destruct (write_to_json_streaming_loop results _ true []) as [[g err2] stop2].
  destruct H as (Htext & -> & ->).
  destruct stop2 as [e|]; cbn [written stderr outcome raised_kind].
  - rewrite !file_close_text, Htext. repeat split.
    unfold reraise. destruct (exn_kind e); reflexivity.
  - rewrite !file_close_text, !file_text_write, Htext. repeat split.
Qed.

(** C9, as stated, fails on the count: for the empty sequence both writers
    leave a text of four characters, not five. *)
Lemma write_to_json_empty_length :
  String.length (written (write_to_json (R := Demo.runtime) [] "out.json")) = 4 /\
  String.length
    (written (write_to_json_streaming (R := Demo.runtime) [] "out.json")) = 4.
Proof. split; reflexivity. Qed.

(** C9, amended.  For the empty sequence both writers return having
    written exactly the four characters open bracket, newline, newline,
    close bracket, which is a JSON text for the empty array. *)
Theorem write_to_json_empty `{R : Runtime} (filename : string) :
  written (write_to_json [] filename) = "[" +:+ nl +:+ nl +:+ "]" /\
  written (write_to_json_streaming [] filename) = "[" +:+ nl +:+ nl +:+ "]" /\
  String.length ("[" +:+ nl +:+ nl +:+ "]") = 4 /\
  is_empty_json_array ("[" +:+ nl +:+ nl +:+ "]") = true /\
  outcome (write_to_json [] filename) = Ok tt /\
  outcome (write_to_json_streaming [] filename) = Ok tt.
Proof. repeat split. Qed.

Section Abort.
Context {R : Runtime}.

(** One step of the proofs below: split on what the element at the head
    does, and close the branches that go on with the induction
    hypothesis. *)
Ltac step IH :=
  repeat match goal with
         | |- context [match serialize ?x with _ => _ end] =>
             destruct (serialize x)
         | |- context [let (_, _) := json_dump ?d in _] =>
             destruct (json_dump d) as [? [?|]]
         | |- context [match csv_row ?x with _ => _ end] =>
             destruct (csv_row x)
         | |- context [if ?c then _ else _] => destruct c
         end;
  try reflexivity; try apply IH.

(** Once an element raises an exception that the loop does not catch, the
    elements after it play no part. *)
Lemma write_to_json_loop_abort (pre post : list item) (e : exn) :
  json_catches e = false ->
  forall f first err,
    write_to_json_loop (pre ++ Duck (Raise e) :: post) f first err =
    write_to_json_loop (pre ++ [Duck (Raise e)]) f first err.
Proof.
  intros He. induction pre as [|x pre IH]; intros f first err.
  - simpl. rewrite He. reflexivity.
  - cbn [app write_to_json_loop]. step IH.
Qed.

Lemma write_to_json_streaming_loop_abort (pre post : list item) (e : exn) :
  json_streaming_catches e = false ->
  forall f first err,
    write_to_json_streaming_loop (pre ++ Duck (Raise e) :: post) f first err =
    write_to_json_streaming_loop (pre ++ [Duck (Raise e)]) f first err.
Proof.
  intros He. induction pre as [|x pre IH]; intros f first err.
  - simpl. rewrite He. reflexivity.
  - cbn [app write_to_json_streaming_loop]. step IH.
Qed.

Lemma write_to_csv_loop_abort (pre post : list item) (e : exn) :
  csv_catches e = false ->
  forall f err,
    write_to_csv_loop (pre ++ Duck (Raise e) :: post) f err =
    write_to_csv_loop (pre ++ [Duck (Raise e)]) f err.
Proof.
  intros He. induction pre as [|x pre IH]; intros f err.
  - simpl. rewrite He. reflexivity.
  - cbn [app write_to_csv_loop]. step IH.
Qed.

(** After elements that are all written, that exception is the one the
    loop stops with. *)
Lemma write_to_json_loop_stops (pre post : list item) (e : exn) :
  json_catches e = false ->
  Forall (fun x => is_Some (element_text x)) pre ->
  forall f first err,
    (write_to_json_loop (pre ++ Duck (Raise e) :: post) f first err).2 = Some e.
Proof.
  intros He. induction 1 as [|x pre [t Hx] _ IH]; intros f first err.
  - simpl. rewrite He. reflexivity.
  - cbn [app write_to_json_loop]. unfold element_text in Hx.
    destruct (serialize x) as [data|]; [|discriminate].
    destruct (json_dump data) as [text [e'|]]; [discriminate|]. apply IH.
Qed.

Lemma write_to_json_streaming_loop_stops (pre post : list item) (e : exn) :
  json_streaming_catches e = false ->
  Forall (fun x => is_Some (element_text x)) pre ->
  forall f first err,
    (write_to_json_streaming_loop (pre ++ Duck (Raise e) :: post) f first err).2
    = Some e.
Proof.
  intros He. induction 1 as [|x pre [t Hx] _ IH]; intros f first err.
  - simpl. rewrite He. reflexivity.
  - cbn [app write_to_json_streaming_loop]. unfold element_text in Hx.
    destruct (serialize x) as [data|]; [|discriminate].
    destruct (json_dump data) as [text [e'|]]; [discriminate|]. apply IH.
Qed.

Lemma write_to_csv_loop_stops (pre post : list item) (e : exn) :
  csv_catches e = false ->
  Forall (fun x => raises (csv_row x) = false) pre ->
  forall f err,
    (write_to_csv_loop (pre ++ Duck (Raise e) :: post) f err).2 = Some e.
Proof.
  intros He. induction 1 as [|x pre Hx _ IH]; intros f err.
  - simpl. rewrite He. reflexivity.
  - cbn [app write_to_csv_loop].
    destruct (csv_row x); [apply IH | discriminate].
Qed.

End Abort.

(** A close approach always yields the seven cells of its row. *)
Lemma csv_row_Approach `{R : Runtime} (a : CloseApproach) :
  raises (csv_row (Approach a)) = false.
Proof.
  unfold csv_row, serialize, CloseApproach_serialize.
  destruct (neo a); reflexivity.
Qed.

(** * Further properties *)

(** ** Comparisons of floats *)

Section Floats.
Import SpecFloat FloatOps.

Lemma SFcompare_refl (x : spec_float) :
  x <> S754_nan -> SFcompare x x = Some Eq.
Proof.
  destruct x as [s|s| |s m e]; intros Hx; try contradiction; simpl.
  - reflexivity.
  - destruct s; reflexivity.
  - rewrite Z.compare_refl, Pos.compare_cont_refl. destruct s; reflexivity.
Qed.

Lemma SFcompare_antisym (x y : spec_float) :
  SFcompare y x = option_map CompOpp (SFcompare x y).
Proof.
  destruct x as [s|s| |s m e], y as [s'|s'| |s' m' e']; simpl;
    try reflexivity; try (destruct s; reflexivity);
    try (destruct s'; reflexivity);
    try (destruct s, s'; reflexivity).
  pose proof (Pos.compare_cont_antisym m m' Eq) as Hm. simpl in Hm.
  rewrite (Z.compare_antisym e e'), <- Hm.
  destruct s, s'; simpl; try reflexivity;
    destruct (e ?= e')%Z; simpl; try reflexivity;
    destruct (Pos.compare_cont Eq m m'); reflexivity.
Qed.

Lemma SFcompare_None (x y : spec_float) :
  SFcompare x y = None -> x = S754_nan \/ y = S754_nan.
Proof.
  destruct x as [s|s| |s m e], y as [s'|s'| |s' m' e']; simpl;
    try discriminate; auto.
Qed.

Lemma is_nan_false (x : float) : is_nan x = false -> Prim2SF x <> S754_nan.
Proof.
  unfold is_nan. rewrite FloatAxioms.eqb_spec. unfold SFeqb.
  intros H E. rewrite E in H. discriminate.
Qed.

(** Not-a-number is the one float that differs from itself. *)
Lemma is_nan_true (x : float) : is_nan x = true -> x = nan.
Proof.
  unfold is_nan. rewrite FloatAxioms.eqb_spec. unfold SFeqb.
  intros H. apply FloatAxioms.Prim2SF_inj.
  destruct (Prim2SF x) eqn:E; try reflexivity;
    rewrite SFcompare_refl in H by discriminate; discriminate.
Qed.

Lemma ltb_nan_l (x : float) : (nan <? x)%float = false.
Proof. rewrite FloatAxioms.ltb_spec. reflexivity. Qed.

Lemma ltb_nan_r (x : float) : (x <? nan)%float = false.
Proof.
  rewrite FloatAxioms.ltb_spec. unfold SFltb.
  change (Prim2SF nan) with S754_nan. destruct (Prim2SF x); reflexivity.
Qed.

(** Between two numbers, [x <= y] holds as soon as [y < x] does not. *)
Lemma not_ltb_leb (x y : float) :
  is_nan x = false -> is_nan y = false ->
  (y <? x)%float = false -> (x <=? y)%float = true.
Proof.
  intros Hx%is_nan_false Hy%is_nan_false.
  rewrite FloatAxioms.ltb_spec, FloatAxioms.leb_spec.
  unfold SFltb, SFleb.
  rewrite (SFcompare_antisym (Prim2SF x) (Prim2SF y)).
  destruct (SFcompare (Prim2SF x) (Prim2SF y)) as [[]|] eqn:Hc; simpl;
    try reflexivity; try discriminate.
  destruct (SFcompare_None _ _ Hc); contradiction.
Qed.

End Floats.

(** ** validation.py, continued *)

(** X1. A not-a-number bound is never out of order and never negative:
    with it on either side, each of the three float range checks raises
    only when the other bound is negative, and with it on both sides none
    raises. *)
Theorem validate_range_nan_bound (x : float) :
  raises (validate_distance_range (Some nan) (Some x)) = (x <? 0)%float /\
  raises (validate_distance_range (Some x) (Some nan)) = (x <? 0)%float /\
  raises (validate_velocity_range (Some nan) (Some x)) = (x <? 0)%float /\
  raises (validate_velocity_range (Some x) (Some nan)) = (x <? 0)%float /\
  raises (validate_diameter_range (Some nan) (Some x)) = (x <? 0)%float /\
  raises (validate_diameter_range (Some x) (Some nan)) = (x <? 0)%float /\
  validate_distance_range (Some nan) (Some nan) = Ok tt /\
  validate_velocity_range (Some nan) (Some nan) = Ok tt /\
  validate_diameter_range (Some nan) (Some nan) = Ok tt.
Proof.
  rewrite !validate_distance_range_raises, !validate_velocity_range_raises,
    !validate_diameter_range_raises, !ltb_nan_l, !ltb_nan_r.
  repeat split; destruct (x <? 0)%float; reflexivity.
Qed.

(** X2. When one of the three float range checks accepts two bounds that
    are both numbers, the range is a range of non-negative numbers:
    [0 <= lower <= upper]. *)
Theorem validate_range_accepted
    (check : option float -> option float -> result unit) (lo hi : float) :
  check = validate_distance_range \/ check = validate_velocity_range
    \/ check = validate_diameter_range ->
  check (Some lo) (Some hi) = Ok tt ->
  is_nan lo = false -> is_nan hi = false ->
  (0 <=? lo)%float = true /\ (lo <=? hi)%float = true
  /\ (0 <=? hi)%float = true.
Proof.
  intros Hcheck Hok Hlo Hhi.
  assert (Hr : ((hi <? lo) || (lo <? 0) || (hi <? 0))%float = false).
  { apply (f_equal raises) in Hok. simpl in Hok.
    destruct Hcheck as [-> | [-> | ->]];
      [rewrite validate_distance_range_raises in Hok
      |rewrite validate_velocity_range_raises in Hok
      |rewrite validate_diameter_range_raises in Hok]; exact Hok. }
  apply orb_false_iff in Hr as [Hr H3]. apply orb_false_iff in Hr as [H1 H2].
  repeat split; apply not_ltb_leb; auto.
Qed.

Lemma validate_range_accepted_witness :
  validate_distance_range (Some 0.5%float) (Some 1%float) = Ok tt /\
  (0 <=? 0.5)%float = true /\ (0.5 <=? 1)%float = true
  /\ (0 <=? 1)%float = true.
Proof.
  split; [reflexivity|].
  apply (validate_range_accepted validate_distance_range 0.5%float 1%float);
    auto.
Defined.

Lemma date_gt_asym (a b : date) : date_gt a b = true -> date_gt b a = false.
Proof.
  unfold date_gt. intros H.
  destruct (year b <? year a)%Z eqn:E1, (year a =? year b)%Z eqn:E2,
    (month b <? month a)%Z eqn:E3, (month a =? month b)%Z eqn:E4,
    (day b <? day a)%Z eqn:E5; try discriminate;
    destruct (year a <? year b)%Z eqn:F1, (year b =? year a)%Z eqn:F2,
      (month a <? month b)%Z eqn:F3, (month b =? month a)%Z eqn:F4,
      (day a <? day b)%Z eqn:F5; try reflexivity; lia.
Qed.

(** X3. The date check rejects a pair of dates in at most one of its two
    orders, accepts equal dates, and accepts every range with a side left
    open. *)
Theorem validate_date_range_orders (a b : date) (open_side : option date) :
  raises (validate_date_range (Some a) (Some b))
    && raises (validate_date_range (Some b) (Some a)) = false /\
  validate_date_range (Some a) (Some a) = Ok tt /\
  validate_date_range open_side None = Ok tt /\
  validate_date_range None open_side = Ok tt.
Proof.
  repeat split.
  - simpl. destruct (date_gt a b) eqn:Hab; [|reflexivity].
    rewrite (date_gt_asym _ _ Hab). reflexivity.
  - simpl. destruct (date_gt a a) eqn:Haa; [|reflexivity].
    pose proof (date_gt_asym _ _ Haa). congruence.
  - destruct open_side; reflexivity.
Qed.

Section Aggregates.
Context {F : FileSystem}.

(** Whether one of the five range and limit checks rejects the arguments. *)
Lemma range_checks_kind (args : Namespace) :
  forall e,
    validate_date_range (start_date args) (end_date args) = Raise e
    \/ validate_distance_range (distance_min args) (distance_max args) = Raise e
    \/ validate_velocity_range (velocity_min args) (velocity_max args) = Raise e
    \/ validate_diameter_range (diameter_min args) (diameter_max args) = Raise e
    \/ validate_limit (limit args) = Raise e ->
    exn_kind e = ValidationError.
Proof.
  intros e [H|[H|[H|[H|H]]]]; revert H.
  - unfold validate_date_range.
    destruct (start_date args), (end_date args); try discriminate.
    destruct (date_gt _ _); [intros [= <-]; reflexivity | discriminate].
  - unfold validate_distance_range.
    destruct (distance_min args) as [a|], (distance_max args) as [b|];
      try discriminate.
    destruct (b <? a)%float, (a <? 0)%float, (b <? 0)%float;
      try discriminate; intros [= <-]; reflexivity.
  - unfold validate_velocity_range.
    destruct (velocity_min args) as [a|], (velocity_max args) as [b|];
      try discriminate.
    destruct (b <? a)%float, (a <? 0)%float, (b <? 0)%float;
      try discriminate; intros [= <-]; reflexivity.
  - unfold validate_diameter_range.
    destruct (diameter_min args) as [a|], (diameter_max args) as [b|];
      try discriminate.
    destruct (b <? a)%float, (a <? 0)%float, (b <? 0)%float;
      try discriminate; intros [= <-]; reflexivity.
  - unfold validate_limit. destruct (limit args) as [n|]; [|discriminate].
    destruct (n <=? 0)%Z; [intros [= <-]; reflexivity | discriminate].
Qed.

End Aggregates.

(** X4. When one of the five range and limit checks rejects the arguments,
    [validate_query_arguments] raises a [ValidationError] and has not
    touched the file system: no output directory is made for a query that
    is refused. *)
Theorem validate_query_arguments_ranges_first `{F : FileSystem}
    (args : Namespace) (st : fs_state) :
  raises (validate_date_range (start_date args) (end_date args))
  || raises (validate_distance_range (distance_min args) (distance_max args))
  || raises (validate_velocity_range (velocity_min args) (velocity_max args))
  || raises (validate_diameter_range (diameter_min args) (diameter_max args))
  || raises (validate_limit (limit args)) = true ->
  (validate_query_arguments args st).1 = st /\
  raised_kind (validate_query_arguments args st).2 = Some ValidationError.
Proof.
  intros H. pose proof (range_checks_kind args) as Hk.
  unfold validate_query_arguments.
  destruct (validate_date_range _ _) as [[]|e1];
    [|split; [reflexivity | simpl; f_equal; apply Hk; auto]].
  destruct (validate_distance_range _ _) as [[]|e2];
    [|split; [reflexivity | simpl; f_equal; apply Hk; auto]].
  destruct (validate_velocity_range _ _) as [[]|e3];
    [|split; [reflexivity | simpl; f_equal; apply Hk; auto]].
  destruct (validate_diameter_range _ _) as [[]|e4];
    [|split; [reflexivity | simpl; f_equal; apply Hk; auto 6]].
  destruct (validate_limit _) as [[]|e5];
    [discriminate | split; [reflexivity | simpl; f_equal; apply Hk; auto 6]].
Qed.

Lemma validate_query_arguments_ranges_first_witness :
  raises (validate_limit (limit (with_limit sample_args (Some 0%Z)))) = true /\
  (validate_query_arguments (F := DemoFS.file_system)
     (with_limit sample_args (Some 0%Z)) DemoFS.sample_state).1
    = DemoFS.sample_state /\
  raised_kind
    (validate_query_arguments (F := DemoFS.file_system)
       (with_limit sample_args (Some 0%Z)) DemoFS.sample_state).2
    = Some ValidationError.
Proof.
  split; [reflexivity|].
  apply (validate_query_arguments_ranges_first (F := DemoFS.file_system)
           (with_limit sample_args (Some 0%Z)) DemoFS.sample_state).
  reflexivity.
Defined.

(** X5. With the ranges and the limit accepted and no output path
    supplied, [validate_query_arguments] leaves the file system alone and
    answers exactly what [validate_inspect_arguments] answers. *)
Theorem validate_query_arguments_then_inspect `{F : FileSystem}
    (args : Namespace) (st : fs_state) :
  raises (validate_date_range (start_date args) (end_date args))
  || raises (validate_distance_range (distance_min args) (distance_max args))
  || raises (validate_velocity_range (velocity_min args) (velocity_max args))
  || raises (validate_diameter_range (diameter_min args) (diameter_max args))
  || raises (validate_limit (limit args)) = false ->
  supplied (outfile args) = None ->
  validate_query_arguments args st = (st, validate_inspect_arguments args st).
Proof.
  intros H Hout.
  unfold validate_query_arguments, validate_inspect_arguments.
  destruct (validate_date_range _ _) as [[]|]; [|discriminate].
  destruct (validate_distance_range _ _) as [[]|]; [|discriminate].
  destruct (validate_velocity_range _ _) as [[]|]; [|discriminate].
  destruct (validate_diameter_range _ _) as [[]|]; [|discriminate].
  destruct (validate_limit _) as [[]|]; [|discriminate].
  rewrite Hout.
  destruct (supplied (neofile args)) as [v|];
    [destruct (validate_file_path v true st); [|reflexivity]|];
    (destruct (supplied (cadfile args)) as [w|];
       [destruct (validate_file_path w true st)|]); reflexivity.
Qed.

Lemma validate_query_arguments_then_inspect_witness :
  supplied (outfile (with_outfile sample_args (Some (PStr "")))) = None /\
  validate_query_arguments (F := DemoFS.file_system)
    (with_outfile sample_args (Some (PStr ""))) DemoFS.sample_state
  = (DemoFS.sample_state,
     validate_inspect_arguments (F := DemoFS.file_system)
       (with_outfile sample_args (Some (PStr ""))) DemoFS.sample_state).
Proof.
  split; [reflexivity|].
  apply (validate_query_arguments_then_inspect (F := DemoFS.file_system));
    reflexivity.
Defined.

(** X6. When the parent directory of the output path is there,
    [validate_output_file_path] changes nothing in the file system, and it
    returns the path exactly when the parent is a directory whose mode has
    the owner's write bit; a parent that is missing is the only case in
    which [mkdir] is called. *)
Theorem validate_output_file_path_existing_parent `{F : FileSystem}
    (path : string) (st : fs_state) :
  path_exists st (path_parent path) = Ok true ->
  (validate_output_file_path (PStr path) st).1 = st /\
  ((validate_output_file_path (PStr path) st).2 = Ok path <->
   path_is_dir st (path_parent path) = Ok true /\
   exists mode, path_stat_mode st (path_parent path) = Ok mode /\
                (Z.land mode 128 =? 0)%Z = false).
Proof.
  intros Hex. unfold validate_output_file_path. cbn [to_path].
  rewrite Hex. cbn [negb].
  destruct (path_is_dir st (path_parent path)) as [[|]|e0]; cbn [fst snd].
  - destruct (path_stat_mode st (path_parent path)) as [mode|e];
      cbn [fst snd].
    + destruct (Z.land mode 128 =? 0)%Z eqn:Hbit; cbn [fst snd].
      * split; [reflexivity|]. split; [discriminate|].
        intros (_ & m & [= <-] & Hm). congruence.
      * split; [reflexivity|]. split; [|reflexivity].
        intros _. split; [reflexivity|]. exists mode. auto.
    + split; [reflexivity|]. split; [discriminate|].
      intros (_ & m & Hm & _). discriminate.
  - split; [reflexivity|]. split; [discriminate|]. intros [? _]. discriminate.
  - split; [reflexivity|]. split; [discriminate|]. intros [? _]. discriminate.
Qed.

Lemma validate_output_file_path_existing_parent_witness :
  validate_output_file_path (F := DemoFS.file_system)
    (PStr "data/results.csv") DemoFS.sample_state
  = (DemoFS.sample_state, Ok "data/results.csv").
Proof.
  destruct (validate_output_file_path_existing_parent
              (F := DemoFS.file_system) "data/results.csv"
              DemoFS.sample_state eq_refl) as [Hst [_ Hok]].
  rewrite <- Hst at 2. rewrite <- Hok.
  - destruct (validate_output_file_path _ _); reflexivity.
  - split; [reflexivity|]. exists 493%Z. split; reflexivity.
Defined.

(** X7. On a file system where a directory is a path that exists,
    [validate_output_file_path] is idempotent: after a call that returned
    the path, a second call returns it again and changes nothing. *)
Theorem validate_output_file_path_idempotent `{F : FileSystem}
    (file_path : pyval) (path : string) (st st' : fs_state) :
  (forall s p, path_is_dir s p = Ok true -> path_exists s p = Ok true) ->
  validate_output_file_path file_path st = (st', Ok path) ->
  validate_output_file_path file_path st' = (st', Ok path).
Proof.
  intros Hlaw. unfold validate_output_file_path.
  destruct (to_path file_path) as [p|e];
    [|destruct (path_catches e); intros [= _ ?]; discriminate].
  destruct (path_exists st (path_parent p)) as [found|e];
    [|intros [= _ ?]; discriminate].
  destruct (if negb found then path_mkdir st (path_parent p) else (st, None))
    as [st1 [e|]];
    [destruct (os_error e); intros [= _ ?]; discriminate|].
  destruct (path_is_dir st1 (path_parent p)) as [[|]|e] eqn:Hdir;
    [|intros [= _ ?]; discriminate|intros [= _ ?]; discriminate].
  destruct (path_stat_mode st1 (path_parent p)) as [mode|e] eqn:Hstat;
    [|intros [= _ ?]; discriminate].
  destruct (Z.land mode 128 =? 0)%Z eqn:Hbit; [intros [= _ ?]; discriminate|].
  intros [= <- <-].
  rewrite (Hlaw _ _ Hdir). cbn [negb]. rewrite Hdir, Hstat, Hbit. reflexivity.
Qed.

Lemma validate_output_file_path_idempotent_witness :
  let made := <["out" := DemoFS.Dir 493]> DemoFS.sample_state in
  validate_output_file_path (F := DemoFS.file_system)
    (PStr "out/results.csv") DemoFS.sample_state
  = (made, Ok "out/results.csv") /\
  validate_output_file_path (F := DemoFS.file_system)
    (PStr "out/results.csv") made
  = (made, Ok "out/results.csv").
Proof.
  intros made.
  assert (Hfirst : validate_output_file_path (F := DemoFS.file_system)
                     (PStr "out/results.csv") DemoFS.sample_state
                   = (made, Ok "out/results.csv")) by reflexivity.
  split; [exact Hfirst|].
  apply (validate_output_file_path_idempotent (F := DemoFS.file_system)
           (PStr "out/results.csv") "out/results.csv"
           DemoFS.sample_state made); [|exact Hfirst].
  intros s p H.
  change (Ok match (s : gmap string DemoFS.node) !! p with
             | Some (DemoFS.Dir _) => true
             | _ => false
             end = Ok true) in H.
  change (Ok (bool_decide (is_Some ((s : gmap string DemoFS.node) !! p)))
          = Ok true).
  destruct ((s : gmap string DemoFS.node) !! p) as [[m|m]|];
    try discriminate.
  reflexivity.
Defined.

(** X8. [validate_inspect_arguments] accepts the arguments exactly when
    each of the two input paths, if it is a non-empty text, names a path
    that exists and is a regular file; an empty text is not checked. *)
Theorem validate_inspect_arguments_files `{F : FileSystem}
    (args : Namespace) (st : fs_state) (neo cad : string) :
  neofile args = Some (PStr neo) ->
  cadfile args = Some (PStr cad) ->
  raises (validate_inspect_arguments args st) =
  negb ((negb (nonempty neo)
         || holds (path_exists st neo) && holds (path_is_file st neo))
        && (negb (nonempty cad)
            || holds (path_exists st cad) && holds (path_is_file st cad))).
Proof.
  intros Hneo Hcad. unfold validate_inspect_arguments, validate_file_path.
  rewrite Hneo, Hcad. unfold supplied. cbn [truthy].
  destruct (nonempty neo), (nonempty cad); cbn [to_path andb negb orb];
    destruct (path_exists st neo) as [[|]|], (path_is_file st neo) as [[|]|],
      (path_exists st cad) as [[|]|], (path_is_file st cad) as [[|]|];
    reflexivity.
Qed.

Lemma validate_inspect_arguments_files_witness :
  neofile sample_args = Some (PStr "data/neos.csv") /\
  raises (validate_inspect_arguments (F := DemoFS.file_system)
            sample_args DemoFS.sample_state) = false /\
  raises (validate_inspect_arguments (F := DemoFS.file_system)
            sample_args ∅) = true.
Proof.
  split; [reflexivity|]. split.
  - rewrite (validate_inspect_arguments_files (F := DemoFS.file_system)
               sample_args DemoFS.sample_state "data/neos.csv" "data/cad.json"
               eq_refl eq_refl).
    reflexivity.
  - rewrite (validate_inspect_arguments_files (F := DemoFS.file_system)
               sample_args ∅ "data/neos.csv" "data/cad.json"
               eq_refl eq_refl).
    reflexivity.
Defined.

(** The file systems on which nothing but the checks themselves can
    raise: the three tests answer, [mkdir] fails with an [OSError] or not
    at all, and [stat] answers for every directory. *)
Lemma validate_file_path_kind `{F : FileSystem} (v : pyval)
    (must_exist : bool) (st : fs_state) (e : exn) :
  (forall s p, raises (path_exists s p) = false) ->
  (forall s p, raises (path_is_file s p) = false) ->
  validate_file_path v must_exist st = Raise e -> exn_kind e = ValidationError.
Proof.
  intros Hex Hfile. unfold validate_file_path.
  destruct v; simpl; try (intros [= <-]; reflexivity).
  destruct must_exist; [|discriminate].
  pose proof (Hex st s) as H1. pose proof (Hfile st s) as H2.
  destruct (path_exists st s) as [[|]|]; try discriminate;
    [|intros [= <-]; reflexivity].
  destruct (path_is_file st s) as [[|]|]; try discriminate.
  intros [= <-]. reflexivity.
Qed.

(** X9. On a file system whose three tests answer without raising, whose
    [mkdir] fails with an [OSError] or not at all and whose [stat] answers
    for every directory, an exception that [validate_query_arguments] or
    [validate_inspect_arguments] raises is a [ValidationError], whatever
    the arguments hold. *)
Theorem validate_query_arguments_raises_ValidationError `{F : FileSystem}
    (args : Namespace) (st : fs_state) (e : exn) :
  (forall s p, raises (path_exists s p) = false) ->
  (forall s p, raises (path_is_file s p) = false) ->
  (forall s p, raises (path_is_dir s p) = false) ->
  (forall s p e', (path_mkdir s p).2 = Some e' -> exn_kind e' = OSError) ->
  (forall s p, path_is_dir s p = Ok true ->
               raises (path_stat_mode s p) = false) ->
  (validate_query_arguments args st).2 = Raise e
  \/ validate_inspect_arguments args st = Raise e ->
  exn_kind e = ValidationError.
Proof.
  intros Hex Hfile Hisdir Hmk Hlaw.
  assert (Hfiles : forall s e',
            match
              match supplied (neofile args) with
              | Some v => validate_file_path v true s
              | None => Ok ""
              end
            with
            | Raise e => Raise e
            | Ok _ =>
                match supplied (cadfile args) with
                | Some v =>
                    match validate_file_path v true s with
                    | Raise e => Raise e
                    | Ok _ => Ok tt
                    end
                | None => Ok tt
                end
            end = Raise e' -> exn_kind e' = ValidationError).
  { intros s e'.
    destruct (supplied (neofile args)) as [v|].
    - destruct (validate_file_path v true s) eqn:Hv;
        [|intros [= <-]; eapply validate_file_path_kind, Hv; assumption].
      destruct (supplied (cadfile args)) as [w|]; [|discriminate].
      destruct (validate_file_path w true s) eqn:Hw; [discriminate|].
      intros [= <-]. eapply validate_file_path_kind, Hw; assumption.
    - destruct (supplied (cadfile args)) as [w|]; [|discriminate].
      destruct (validate_file_path w true s) eqn:Hw; [discriminate|].
      intros [= <-]. eapply validate_file_path_kind, Hw; assumption. }
  intros [H|H]; [|exact (Hfiles _ _ H)].
  revert H. pose proof (range_checks_kind args) as Hk.
  unfold validate_query_arguments.
  destruct (validate_date_range _ _) as [[]|e1] eqn:H1;
    [|intros [= <-]; apply Hk; auto].
  destruct (validate_distance_range _ _) as [[]|e2] eqn:H2;
    [|intros [= <-]; apply Hk; auto].
  destruct (validate_velocity_range _ _) as [[]|e3] eqn:H3;
    [|intros [= <-]; apply Hk; auto].
  destruct (validate_diameter_range _ _) as [[]|e4] eqn:H4;
    [|intros [= <-]; apply Hk; auto 6].
  destruct (validate_limit _) as [[]|e5] eqn:H5;
    [|intros [= <-]; apply Hk; auto 6].
  assert (Htail : forall s,
            (let (st0, checked) := (s, Ok (A := string) "") in
             match checked with
             | Raise e => (st0, Raise e)
             | Ok _ =>
                 match
                   match supplied (neofile args) with
                   | Some v => validate_file_path v true st0
                   | None => Ok ""
                   end
                 with
                 | Raise e => (st0, Raise e)
                 | Ok _ =>
                     match supplied (cadfile args) with
                     | Some v =>
                         match validate_file_path v true st0 with
                         | Raise e => (st0, Raise e)
                         | Ok _ => (st0, Ok tt)
                         end
                     | None => (st0, Ok tt)
                     end
                 end
             end).2 = Raise e -> exn_kind e = ValidationError).
  { intros s H. apply (Hfiles s). revert H. cbn [snd].
    destruct (supplied (neofile args)) as [a|];
      [destruct (validate_file_path a true s); [|intros [= <-]; reflexivity]|];
      (destruct (supplied (cadfile args)) as [b|];
         [destruct (validate_file_path b true s)|]);
      try discriminate; intros [= <-]; reflexivity. }
  destruct (supplied (outfile args)) as [v|]; [|apply Htail].
  unfold validate_output_file_path.
  destruct (to_path v) as [p|e0] eqn:Hp;
    [|destruct v; try discriminate; injection Hp as <-;
      intros [= <-]; reflexivity].
  pose proof (Hex st (path_parent p)) as Hex'.
  destruct (path_exists st (path_parent p)) as [found|]; [|discriminate].
  pose proof (Hmk st (path_parent p)) as Hmk'.
  destruct (if negb found then path_mkdir st (path_parent p) else (st, None))
    as [st1 [e'|]] eqn:Hmade.
  - assert (Hos : exn_kind e' = OSError).
    { destruct found; cbn [negb] in Hmade; [discriminate|].
      apply Hmk'. rewrite Hmade. reflexivity. }
    unfold os_error. rewrite Hos. intros [= <-]. reflexivity.
  - pose proof (Hisdir st1 (path_parent p)) as Hd.
    destruct (path_is_dir st1 (path_parent p)) as [[|]|] eqn:Hdir;
      [|intros [= <-]; reflexivity|discriminate].
    pose proof (Hlaw _ _ Hdir) as Hstat.
    destruct (path_stat_mode st1 (path_parent p)) as [mode|]; [|discriminate].
    destruct (Z.land mode 128 =? 0)%Z; [intros [= <-]; reflexivity|].
    apply (Htail st1).
Qed.

Lemma validate_query_arguments_raises_ValidationError_witness :
  (validate_query_arguments (F := DemoFS.file_system)
     (with_outfile sample_args (Some (PBool true))) DemoFS.sample_state).2
  = Raise (Exn ValidationError
             [Lit "Invalid output file path '"; Fmt (PBool true); Lit "': ";
              Lit "expected str, bytes or os.PathLike object, not ";
              Lit "bool"]) /\
  exn_kind
    (Exn ValidationError
       [Lit "Invalid output file path '"; Fmt (PBool true); Lit "': ";
        Lit "expected str, bytes or os.PathLike object, not ";
        Lit "bool"]) = ValidationError.
Proof.
  split; [reflexivity|].
  apply (validate_query_arguments_raises_ValidationError
           (F := DemoFS.file_system)
           (with_outfile sample_args (Some (PBool true))) DemoFS.sample_state);
    try (intros; reflexivity).
  - intros s p e' H.
    change ((DemoFS.mkdir s p).2 = Some e') in H. unfold DemoFS.mkdir in H.
    destruct ((s : gmap string DemoFS.node) !! p) as [[m|m]|];
      try discriminate.
    injection H as <-. reflexivity.
  - intros s p H.
    change (Ok match (s : gmap string DemoFS.node) !! p with
               | Some (DemoFS.Dir _) => true
               | _ => false
               end = Ok true) in H.
    change (raises (DemoFS.stat_mode s p) = false). unfold DemoFS.stat_mode.
    destruct ((s : gmap string DemoFS.node) !! p) as [[m|m]|];
      try discriminate; reflexivity.
  - left. reflexivity.
Defined.

(** ** models.py, continued *)



(** What the constructor stores as the name: [None], or the text it was
    given when that text is not blank. *)
Lemma NearEarthObject_init_name_cases `{R : Runtime}
    (des given dia haz : pyval) (neo : NearEarthObject) :
  NearEarthObject_init des given dia haz = Ok neo ->
  name neo = PNone \/
  exists s, name neo = PStr s /\ given = PStr s /\ blank s = false.
Proof.
  unfold NearEarthObject_init. intros H.
  assert (Hname : forall n d : _,
            (if truthy dia && nonempty (strip (py_str dia))
             then py_float dia else mret nan) = Ok d ->
            Ok {| designation := if truthy des then py_str des else "";
                  name := n; diameter := d; hazardous := truthy haz;
                  approaches := [] |} = Ok neo ->
            name neo = n).
  { intros n d _ [= <-]. reflexivity. }
  destruct (if truthy dia && nonempty (strip (py_str dia))
            then py_float dia else mret nan) as [d|e] eqn:Hd.
  - destruct given as [|b|f|s|kvs]; cbn [truthy] in H.
    + left. apply (Hname _ d eq_refl H).
    + destruct b; [discriminate|]. left. apply (Hname _ d eq_refl H).
    + destruct (negb (f =? 0)%float); [discriminate|].
      left. apply (Hname _ d eq_refl H).
    + destruct (nonempty s) eqn:Hs.
      * cbn [py_strip mbind result_bind mret result_ret] in H.
        rewrite nonempty_strip in H. destruct (blank s) eqn:Hb; cbn [negb] in H.
        -- left. apply (Hname _ d eq_refl H).
        -- right. exists s. split; [apply (Hname _ d eq_refl H) | auto].
      * left. apply (Hname _ d eq_refl H).
    + destruct kvs; [|discriminate]. left. apply (Hname _ d eq_refl H).
  - destruct given as [|b|f|s|kvs]; cbn [truthy] in H;
      try discriminate;
      try (destruct b; discriminate);
      try (destruct (negb (f =? 0)%float); discriminate);
      try (destruct kvs; discriminate).
    destruct (nonempty s); [|discriminate].
    cbn [py_strip mbind result_bind mret result_ret] in H. discriminate.
Qed.

(** X10. Whatever the constructor was given, an object it returns
    serializes its name as a text, never as [None]: the empty text exactly
    when the object has no name. *)
Theorem NearEarthObject_serialize_name_text `{R : Runtime}
    (des given dia haz : pyval) (neo : NearEarthObject) :
  NearEarthObject_init des given dia haz = Ok neo ->
  exists s,
    subscript (NearEarthObject_serialize neo) "name" = Ok (PStr s) /\
    (s = "" <-> name neo = PNone).
Proof.
  intros H.
  destruct (NearEarthObject_init_name_cases _ _ _ _ _ H)
    as [Hn | (s & Hn & _ & Hb)].
  - exists "". unfold NearEarthObject_serialize. rewrite Hn.
    split; [reflexivity | tauto].
  - exists s. unfold NearEarthObject_serialize. rewrite Hn.
    cbn [truthy]. rewrite (blank_nonempty _ Hb).
    split; [reflexivity|]. split; [|discriminate].
    intros ->. discriminate.
Qed.

Lemma NearEarthObject_serialize_name_text_witness :
  NearEarthObject_init (R := Demo.runtime)
    (PStr "433") (PStr "   ") (PStr "0.5") (PStr "") =
    Ok {| designation := "433"; name := PNone; diameter := 0.5;
          hazardous := false; approaches := [] |} /\
  exists s,
    subscript (NearEarthObject_serialize
                 {| designation := "433"; name := PNone; diameter := 0.5;
                    hazardous := false; approaches := [] |}) "name"
      = Ok (PStr s) /\
    (s = "" <-> PNone = PNone).
Proof.
  assert (Hinit : NearEarthObject_init (R := Demo.runtime)
            (PStr "433") (PStr "   ") (PStr "0.5") (PStr "") =
          Ok {| designation := "433"; name := PNone; diameter := 0.5;
                hazardous := false; approaches := [] |})
    by (vm_compute; reflexivity).
  split; [exact Hinit|].
  exact (NearEarthObject_serialize_name_text (R := Demo.runtime)
           _ _ _ _ _ Hinit).
Defined.

(** X11. An object built with a text as its name has the designation alone
    as its full name when that text is empty or white space, and the
    designation followed by the text in parentheses otherwise. *)
Theorem NearEarthObject_fullname_init `{R : Runtime}
    (des dia haz : pyval) (nm : string) (neo : NearEarthObject) :
  NearEarthObject_init des (PStr nm) dia haz = Ok neo ->
  NearEarthObject_fullname neo =
    (if blank nm then designation neo
     else designation neo +:+ " (" +:+ nm +:+ ")").
Proof.
  intros H. unfold NearEarthObject_fullname.
  destruct (NearEarthObject_init_name_cases _ _ _ _ _ H)
    as [Hn | (s & Hn & [= <-] & Hb)].
  - rewrite Hn. cbn [truthy].
    destruct (blank nm) eqn:Hb; [reflexivity|].
    revert H Hn. unfold NearEarthObject_init. cbn [truthy].
    rewrite (blank_nonempty _ Hb).
    cbn [py_strip mbind result_bind mret result_ret].
    rewrite nonempty_strip, Hb. cbn [negb].
    destruct (if truthy dia && nonempty (strip (py_str dia))
              then py_float dia else mret nan); [|discriminate].
    intros [= <-]. discriminate.
  - rewrite Hn, Hb. cbn [truthy py_str]. rewrite (blank_nonempty _ Hb).
    reflexivity.
Qed.

Lemma NearEarthObject_fullname_init_witness :
  NearEarthObject_init (R := Demo.runtime)
    (PStr "433") (PStr "Eros") (PStr "0.5") (PBool false) =
    Ok {| designation := "433"; name := PStr "Eros"; diameter := 0.5;
          hazardous := false; approaches := [] |} /\
  NearEarthObject_fullname (R := Demo.runtime)
    {| designation := "433"; name := PStr "Eros"; diameter := 0.5;
       hazardous := false; approaches := [] |} = "433 (Eros)".
Proof.
  assert (Hinit : NearEarthObject_init (R := Demo.runtime)
            (PStr "433") (PStr "Eros") (PStr "0.5") (PBool false) =
          Ok {| designation := "433"; name := PStr "Eros"; diameter := 0.5;
                hazardous := false; approaches := [] |})
    by (vm_compute; reflexivity).
  split; [exact Hinit|].
  exact (NearEarthObject_fullname_init (R := Demo.runtime) _ _ _ _ _ Hinit).
Defined.

(** The test for not-a-number in [serialize] keeps every float. *)
Lemma diameter_unchanged (d : float) :
  (if negb (negb (d =? d)%float) then d else nan) = d.
Proof.
  destruct (d =? d)%float eqn:E; cbn [negb]; [reflexivity|].
  symmetry. apply is_nan_true. unfold is_nan. rewrite E. reflexivity.
Qed.

(** X12. Serializing an object gives its diameter as it is stored, for
    every stored value: the test for not-a-number in [serialize] replaces
    not-a-number by not-a-number and changes nothing. *)
Theorem NearEarthObject_serialize_diameter (neo : NearEarthObject) :
  subscript (NearEarthObject_serialize neo) "diameter_km"
    = Ok (PFloat (diameter neo)).
Proof.
  unfold NearEarthObject_serialize, subscript.
  change (dict_get _ _) with
    (Some (PFloat (if negb (negb (diameter neo =? diameter neo)%float)
                   then diameter neo else nan))).
  rewrite diameter_unchanged. reflexivity.
Qed.

(** X13. A close approach built from a time, a distance and a velocity
    that are all false in Python's sense ([None], the empty text, a zero)
    is returned without [float] or the date parser being called: no time,
    distance and velocity [0.0], no linked object, and the empty text as
    its formatted time. *)
Theorem CloseApproach_init_defaults `{R : Runtime}
    (des t d v : pyval) :
  truthy t = false -> truthy d = false -> truthy v = false ->
  exists a,
    CloseApproach_init des t d v = Ok a /\
    time a = None /\ distance a = 0%float /\ velocity a = 0%float /\
    neo a = None /\ CloseApproach_time_str a = "".
Proof.
  intros Ht Hd Hv. unfold CloseApproach_init. rewrite Ht, Hd, Hv.
  eexists. split; [reflexivity|]. repeat split.
Qed.

Lemma CloseApproach_init_defaults_witness :
  truthy (PStr "") = false /\
  exists a,
    CloseApproach_init (R := Demo.runtime)
      (PStr "433") PNone (PStr "") (PFloat 0) = Ok a /\
    time a = None /\ distance a = 0%float /\ velocity a = 0%float /\
    neo a = None /\ CloseApproach_time_str a = "".
Proof.
  split; [reflexivity|].
  apply (CloseApproach_init_defaults (R := Demo.runtime)); reflexivity.
Defined.

(** ** extract.py, continued *)

Section MapM.
Context {A B : Type} (f : A -> result B).

Lemma mapM_result_cons (x : A) (l : list A) :
  mapM f (x :: l) = (y ← f x; k ← mapM f l; mret (y :: k)).
Proof. reflexivity. Qed.

Lemma mapM_result_Ok (l : list A) (k : list B) :
  mapM f l = Ok k <-> Forall2 (fun x y => f x = Ok y) l k.
Proof.
  revert k. induction l as [|x l IH]; intros k.
  - split; [intros [= <-]; constructor | intros H; inversion H; reflexivity].
  - rewrite mapM_result_cons. split.
    + destruct (f x) as [y|] eqn:Hx; [|discriminate]. simpl.
      destruct (mapM f l) as [k'|]; [|discriminate]. intros [= <-].
      constructor; [exact Hx | apply IH; reflexivity].
    + intros H. inversion H as [|? y ? k' Hx Hl]; subst.
      rewrite Hx. simpl. apply IH in Hl. rewrite Hl. reflexivity.
Qed.

Lemma mapM_result_Raise (pre post : list A) (x : A) (e : exn) :
  Forall (fun r => raises (f r) = false) pre ->
  f x = Raise e ->
  mapM f (pre ++ x :: post) = Raise e.
Proof.
  intros Hpre Hx. induction Hpre as [|r pre Hr _ IH].
  - simpl. rewrite Hx. reflexivity.
  - cbn [app]. rewrite mapM_result_cons.
    destruct (f r); [|discriminate]. simpl. rewrite IH. reflexivity.
Qed.

End MapM.

Lemma NearEarthObject_init_approaches `{R : Runtime}
    (des given dia haz : pyval) (neo : NearEarthObject) :
  NearEarthObject_init des given dia haz = Ok neo -> approaches neo = [].
Proof.
  unfold NearEarthObject_init.
  destruct (if truthy given then _ else _); [|discriminate]. simpl.
  destruct (if truthy dia && _ then _ else _); [|discriminate]. simpl.
  intros [= <-]. reflexivity.
Qed.

(** X14. When [load_neos] returns, it returns one object per row, in the
    order of the rows, each the object its row loads into and each with an
    empty collection of approaches. *)
Theorem load_neos_shape `{R : Runtime} (reader : list (gmap string pyval))
    (neos : list NearEarthObject) :
  load_neos reader = Ok neos ->
  length neos = length reader /\
  Forall2 (fun row neo => load_neo row = Ok neo) reader neos /\
  Forall (fun neo => approaches neo = []) neos.
Proof.
  unfold load_neos. intros H%mapM_result_Ok.
  split; [symmetry; eapply Forall2_length, H|]. split; [exact H|].
  induction H as [|row neo reader neos Hrow _ IH]; constructor; [|exact IH].
  revert Hrow. unfold load_neo. unfold mbind at 1 2 3 4, result_bind.
  repeat match goal with
         | |- match ?r with Ok _ => _ | Raise _ => _ end = Ok _ -> _ =>
             destruct r; [|discriminate]
         end.
  apply NearEarthObject_init_approaches.
Qed.

Lemma load_neos_shape_witness :
  load_neos (R := Demo.runtime) [sample_row; sample_row] =
    Ok [ {| designation := "433"; name := PNone; diameter := nan;
            hazardous := true; approaches := [] |};
         {| designation := "433"; name := PNone; diameter := nan;
            hazardous := true; approaches := [] |} ] /\
  length [ {| designation := "433"; name := PNone; diameter := nan;
              hazardous := true; approaches := [] |};
           {| designation := "433"; name := PNone; diameter := nan;
              hazardous := true; approaches := [] |} ] = 2.
Proof.
  assert (H : load_neos (R := Demo.runtime) [sample_row; sample_row] =
    Ok [ {| designation := "433"; name := PNone; diameter := nan;
            hazardous := true; approaches := [] |};
         {| designation := "433"; name := PNone; diameter := nan;
            hazardous := true; approaches := [] |} ])
    by (vm_compute; reflexivity).
  split; [exact H|].
  exact (proj1 (load_neos_shape (R := Demo.runtime) _ _ H)).
Defined.

(** X15. [load_neos] is all or nothing: when the rows before it all load
    and one row raises, [load_neos] raises that exception and returns no
    object, whatever the rows after it hold. *)
Theorem load_neos_first_failure `{R : Runtime}
    (pre post : list (gmap string pyval)) (row : gmap string pyval)
    (e : exn) :
  Forall (fun r => raises (load_neo r) = false) pre ->
  load_neo row = Raise e ->
  load_neos (pre ++ row :: post) = Raise e.
Proof. apply mapM_result_Raise. Qed.

Lemma load_neos_first_failure_witness :
  load_neo (R := Demo.runtime) ∅ = Raise (Exn KeyError [Fmt (PStr "pdes")]) /\
  load_neos (R := Demo.runtime) ([sample_row] ++ ∅ :: [sample_row]) =
    Raise (Exn KeyError [Fmt (PStr "pdes")]).
Proof.
  split; [reflexivity|].
  apply (load_neos_first_failure (R := Demo.runtime)).
  - repeat constructor.
  - reflexivity.
Defined.

(** X16. A row whose diameter is a text that is not blank and that [float]
    rejects makes [load_neos] raise the exception of [float]: the row is
    not skipped and the exception is not replaced. *)
Theorem load_neos_bad_diameter `{R : Runtime} (row : gmap string pyval)
    (rest : list (gmap string pyval)) (pdes nm dia pha : string) (e : exn) :
  row !! "pdes" = Some (PStr pdes) ->
  row !! "name" = Some (PStr nm) ->
  row !! "diameter" = Some (PStr dia) ->
  row !! "pha" = Some (PStr pha) ->
  blank dia = false ->
  float_of_str dia = Raise e ->
  load_neos (row :: rest) = Raise e.
Proof.
  intros Hpdes Hnm Hdia Hpha Hb He.
  rewrite load_neos_cons,
    (load_neo_fields row pdes nm dia pha Hpdes Hnm Hdia Hpha).
  unfold NearEarthObject_init. rewrite NearEarthObject_init_name, Hb.
  cbn [mbind result_bind truthy py_str py_float].
  rewrite (blank_nonempty _ Hb), nonempty_strip, Hb. cbn [negb andb].
  rewrite He. reflexivity.
Qed.

Lemma load_neos_bad_diameter_witness :
  float_of_str (Runtime := Demo.runtime) "1 km" =
    Raise (Exn ValueError
             [Lit "could not convert string to float: "; Fmt (PStr "1 km")]) /\
  load_neos (R := Demo.runtime)
    [list_to_map
       [("pdes", PStr "433"); ("name", PStr "Eros");
        ("diameter", PStr "1 km"); ("pha", PStr "N")]; sample_row] =
    Raise (Exn ValueError
             [Lit "could not convert string to float: "; Fmt (PStr "1 km")]).
Proof.
  split; [reflexivity|].
  apply (load_neos_bad_diameter (R := Demo.runtime) _ _
           "433" "Eros" "1 km" "N"); reflexivity.
Defined.

(** X17. A row that lacks one of the four columns, its other columns being
    texts, makes [load_neos] raise [KeyError]. *)
Theorem load_neos_missing_column `{R : Runtime} (row : gmap string pyval)
    (rest : list (gmap string pyval)) :
  Forall (fun k => row !! k = None \/ exists s, row !! k = Some (PStr s))
    ["pdes"; "name"; "diameter"; "pha"] ->
  Exists (fun k => row !! k = None) ["pdes"; "name"; "diameter"; "pha"] ->
  raised_kind (load_neos (row :: rest)) = Some KeyError.
Proof.
  intros Hall Hmiss. rewrite load_neos_cons.
  apply Forall_cons in Hall as [H1 Hall]. apply Forall_cons in Hall as [H2 Hall].
  apply Forall_cons in Hall as [H3 Hall]. apply Forall_cons in Hall as [H4 _].
  unfold load_neo, row_get.
  destruct H1 as [H1|[s1 H1]], H2 as [H2|[s2 H2]], H3 as [H3|[s3 H3]],
    H4 as [H4|[s4 H4]]; rewrite ?H1, ?H2, ?H3, ?H4;
    cbn [mbind result_bind py_strip mret result_ret];
    repeat match goal with
           | |- context [if nonempty ?t then _ else _] => destruct (nonempty t)
           end;
    try reflexivity.
  all: exfalso;
    repeat (apply Exists_cons in Hmiss as [Hmiss|Hmiss]; [congruence|]);
    inversion Hmiss.
Qed.

Lemma load_neos_missing_column_witness :
  raised_kind
    (load_neos (R := Demo.runtime)
       [list_to_map [("pdes", PStr "433"); ("name", PStr "Eros");
                     ("diameter", PStr "")]; sample_row])
  = Some KeyError.
Proof.
  apply (load_neos_missing_column (R := Demo.runtime)).
  - repeat apply Forall_cons_2; try apply Forall_nil_2;
      try (right; eexists; reflexivity).
    left. reflexivity.
  - do 3 apply Exists_cons_tl. apply Exists_cons_hd. reflexivity.
Defined.

(** X18. A row whose name is [None], which is what the reader puts in the
    columns that a short line leaves out, makes [load_neos] raise
    [AttributeError]: [None] has no [strip]. *)
Theorem load_neos_short_row `{R : Runtime} (row : gmap string pyval)
    (rest : list (gmap string pyval)) (pdes : pyval) :
  row !! "pdes" = Some pdes ->
  row !! "name" = Some PNone ->
  load_neos (row :: rest) =
    Raise (Exn AttributeError
             [Lit "'"; Lit "NoneType"; Lit "' object has no attribute 'strip'"]).
Proof.
  intros Hpdes Hname. rewrite load_neos_cons. unfold load_neo, row_get.
  rewrite Hpdes, Hname. reflexivity.
Qed.

Lemma load_neos_short_row_witness :
  load_neos (R := Demo.runtime)
    [list_to_map [("pdes", PStr "433"); ("name", PNone);
                  ("diameter", PNone); ("pha", PNone)]] =
    Raise (Exn AttributeError
             [Lit "'"; Lit "NoneType"; Lit "' object has no attribute 'strip'"]).
Proof.
  apply (load_neos_short_row (R := Demo.runtime) _ _ (PStr "433"));
    reflexivity.
Defined.

Lemma list_index_not_elem (x : string) (l : list string) :
  x ∉ l -> list_index x l = None.
Proof.
  intros Hx. destruct (list_index x l) as [i|] eqn:E; [|reflexivity].
  destruct Hx. eapply list_elem_of_lookup_2, list_index_Some, E.
Qed.

(** X19. When the header lacks one of the four field names,
    [load_approaches] raises [ValueError] whatever the rows are: the names
    are looked up before the first row is read. *)
Theorem load_approaches_missing_field `{R : Runtime} (fields : list string)
    (approach_data : list (list pyval)) :
  Exists (fun k => k ∉ fields) ["des"; "cd"; "dist"; "v_rel"] ->
  raised_kind (load_approaches fields approach_data) = Some ValueError.
Proof.
  intros Hmiss. unfold load_approaches, index.
  destruct (list_index "des" fields) eqn:H1; [|reflexivity].
  destruct (list_index "cd" fields) eqn:H2; [|reflexivity].
  destruct (list_index "dist" fields) eqn:H3; [|reflexivity].
  destruct (list_index "v_rel" fields) eqn:H4; [|reflexivity].
  exfalso.
  repeat (apply Exists_cons in Hmiss as [Hmiss|Hmiss];
          [apply list_index_not_elem in Hmiss; congruence|]).
  inversion Hmiss.
Qed.

Lemma load_approaches_missing_field_witness :
  raised_kind
    (load_approaches (R := Demo.runtime) ["des"; "cd"; "dist"]
       [[PStr "433"]; []])
  = Some ValueError.
Proof.
  apply (load_approaches_missing_field (R := Demo.runtime)).
  do 3 apply Exists_cons_tl. apply Exists_cons_hd.
  apply (bool_decide_unpack _). vm_compute. exact I.
Defined.

(** X20. When [load_approaches] returns, it returns one close approach per
    row, none of them linked to an object. *)
Theorem load_approaches_shape `{R : Runtime} (fields : list string)
    (approach_data : list (list pyval)) (approaches : list CloseApproach) :
  load_approaches fields approach_data = Ok approaches ->
  length approaches = length approach_data /\
  Forall (fun a => neo a = None) approaches.
Proof.
  unfold load_approaches.
  destruct (index fields "des") as [i1|]; [|discriminate].
  destruct (index fields "cd") as [i2|]; [|discriminate].
  destruct (index fields "dist") as [i3|]; [|discriminate].
  destruct (index fields "v_rel") as [i4|]; [|discriminate].
  cbn [mbind result_bind]. intros H%mapM_result_Ok.
  split; [symmetry; eapply Forall2_length, H|].
  induction H as [|row a data l Hrow _ IH]; constructor; [|exact IH].
  revert Hrow.
  destruct (item_at row i1) as [v1|]; [|discriminate].
  destruct (item_at row i2) as [v2|]; [|discriminate].
  destruct (item_at row i3) as [v3|]; [|discriminate].
  destruct (item_at row i4) as [v4|]; [|discriminate].
  cbn [mbind result_bind]. intros Ha.
  apply (CloseApproach_init_unlinked _ _ _ _ _ Ha).
Qed.

Lemma load_approaches_shape_witness :
  let loaded :=
    [@Build_CloseApproach Demo.runtime
       "433" (Some "1900-Dec-27 01:30") 0.5%float 10%float None] in
  load_approaches (R := Demo.runtime) sample_fields sample_data = Ok loaded /\
  length loaded = length sample_data /\
  Forall (fun a => neo a = None) loaded.
Proof.
  intros loaded.
  assert (H : load_approaches (R := Demo.runtime) sample_fields sample_data
              = Ok loaded) by reflexivity.
  split; [exact H|].
  exact (load_approaches_shape (R := Demo.runtime) _ _ _ H).
Defined.

(** X21. With the four names in the header, a row too short to have a
    value at the place of [des] makes [load_approaches] raise
    [IndexError]. *)
Theorem load_approaches_short_row `{R : Runtime} (fields : list string)
    (row : list pyval) (rest : list (list pyval)) (i : nat) :
  list_index "des" fields = Some i ->
  Forall (fun k => k ∈ fields) ["cd"; "dist"; "v_rel"] ->
  length row <= i ->
  load_approaches fields (row :: rest) =
    Raise (Exn IndexError [Lit "list index out of range"]).
Proof.
  intros Hdes Hin Hlen. unfold load_approaches, index. rewrite Hdes.
  apply Forall_cons in Hin as [[i2 H2]%list_index_elem Hin].
  apply Forall_cons in Hin as [[i3 H3]%list_index_elem Hin].
  apply Forall_cons in Hin as [[i4 H4]%list_index_elem _].
  rewrite H2, H3, H4. cbn [mbind result_bind].
  assert (Hi : item_at row i =
               Raise (Exn IndexError [Lit "list index out of range"])).
  { unfold item_at. rewrite (lookup_ge_None_2 row i) by lia. reflexivity. }
  rewrite mapM_result_cons, Hi. reflexivity.
Qed.

Lemma load_approaches_short_row_witness :
  load_approaches (R := Demo.runtime) sample_fields [[PStr "659"]] =
    Raise (Exn IndexError [Lit "list index out of range"]).
Proof.
  apply (load_approaches_short_row (R := Demo.runtime)
           sample_fields [PStr "659"] [] 1).
  - reflexivity.
  - repeat constructor; apply (bool_decide_unpack _); vm_compute; exact I.
  - simpl. lia.
Defined.

(** ** write.py, continued *)

(** X22. For the empty sequence [write_to_csv] returns having written the
    header line alone: the seven column names separated by commas, and the
    line terminator. *)
Theorem write_to_csv_empty `{R : Runtime} (filename : string) :
  written (write_to_csv [] filename) = join "," fieldnames +:+ cr +:+ nl /\
  length fieldnames = 7 /\
  stderr (write_to_csv [] filename) = [] /\
  outcome (write_to_csv [] filename) = Ok tt.
Proof. repeat split. Qed.

(** X23. The row of a close approach has, after its time, distance and
    velocity, the four values of its object: those of the linked object
    when there is one (the empty text for a missing name), and otherwise
    the captured designation, the empty text, not-a-number and [False]. *)
Theorem csv_row_Approach_cells `{R : Runtime} (a : CloseApproach) :
  csv_row (Approach a) =
  Ok (PStr (CloseApproach_time_str a) :: PFloat (distance a)
      :: PFloat (velocity a)
      :: match neo a with
         | Some o =>
             [PStr (designation o);
              if truthy (name o) then name o else PStr "";
              PFloat (diameter o); PBool (hazardous o)]
         | None =>
             [PStr (_designation a); PStr ""; PFloat nan; PBool false]
         end).
Proof.
  unfold csv_row, serialize, CloseApproach_serialize.
  destruct (neo a) as [o|]; [|reflexivity].
  rewrite <- (diameter_unchanged (diameter o)) at 1. reflexivity.
Qed.

Section CsvSkips.
Context {R : Runtime}.

Lemma write_to_csv_loop_filter (results : list item) :
  Forall (fun x => match csv_row x with
                   | Raise e => csv_catches e = true
                   | Ok _ => True
                   end) results ->
  forall (f : file) (err : list (list piece)),
    exists (f' : file) (err' : list (list piece)),
      write_to_csv_loop results f err = (f', (err ++ err')%list, None) /\
      write_to_csv_loop (filter (fun x => has_row x = true) results) f []
        = (f', [], None) /\
      length err' + length (filter (fun x => has_row x = true) results)
        = length results.
Proof.
  induction 1 as [|x results Hx _ IH]; intros f err.
  - exists f, []. rewrite List.app_nil_r. repeat split.
  - cbn [write_to_csv_loop].
    destruct (csv_row x) as [row|e] eqn:Hrow.
    + rewrite filter_cons_True by (unfold has_row; rewrite Hrow; reflexivity).
      cbn [write_to_csv_loop]. rewrite Hrow.
      destruct (IH (file_write (csv_writerow row) f) err)
        as (f' & err' & H1 & H2 & H3).
      exists f', err'. repeat split; [exact H1 | exact H2 |].
      cbn [length]. lia.
    + rewrite filter_cons_False
        by (unfold has_row; rewrite Hrow; discriminate).
      rewrite Hx.
      destruct (IH f (err ++ [warning e])%list) as (f' & err' & H1 & H2 & H3).
      exists f', (warning e :: err'). repeat split; [|exact H2|].
      * rewrite H1. rewrite <- List.app_assoc. reflexivity.
      * cbn [length]. lia.
Qed.

End CsvSkips.

(** X24. When every failing element fails with an exception that the CSV
    writer catches, the file is the one the writer makes of the elements
    that have a row: a skipped element leaves no trace in it.  The writer
    returns, having printed one warning per skipped element. *)
Theorem write_to_csv_skips_cleanly `{R : Runtime} (results : list item)
    (filename : string) :
  Forall (fun x => match csv_row x with
                   | Raise e => csv_catches e = true
                   | Ok _ => True
                   end) results ->
  written (write_to_csv results filename) =
    written (write_to_csv (filter (fun x => has_row x = true) results)
               filename) /\
  outcome (write_to_csv results filename) = Ok tt /\
  length (stderr (write_to_csv results filename))
  + length (filter (fun x => has_row x = true) results) = length results.
Proof.
  intros H. unfold write_to_csv.
  destruct (write_to_csv_loop_filter results H
              (file_write writeheader file_open) [])
    as (f' & err' & -> & -> & Hlen).
  repeat split. exact Hlen.
Qed.

Lemma write_to_csv_skips_cleanly_witness :
  let results :=
    [Approach sample_approach;
     Duck (Raise (Exn AttributeError
                    [Lit "'NoneType' object has no attribute 'serialize'"]));
     Duck (Ok (PDict []));
     Approach sample_approach] in
  written (write_to_csv results "out.csv") =
    written (write_to_csv [Approach sample_approach; Approach sample_approach]
               "out.csv") /\
  outcome (write_to_csv results "out.csv") = Ok tt.
Proof.
  intros results.
  destruct (write_to_csv_skips_cleanly (R := Demo.runtime) results "out.csv")
    as (H1 & H2 & _).
  - subst results.
    repeat apply Forall_cons_2; try apply Forall_nil_2;
      try exact I; reflexivity.
  - split; [exact H1 | exact H2].
Defined.

Section JsonEmitted.
Context {R : Runtime}.

Lemma join_continued (t : string) (texts : list string) :
  join ("," +:+ nl) (t :: texts) = t +:+ continued texts.
Proof.
  revert t. induction texts as [|u texts IH]; intros t.
  - symmetry. apply app_nil_r.
  - change (join ("," +:+ nl) (t :: u :: texts))
      with (t +:+ ("," +:+ nl) +:+ join ("," +:+ nl) (u :: texts)).
    rewrite (IH u). cbn [continued fold_right].
    rewrite !app_assoc. reflexivity.
Qed.

(** The buffered loop over elements whose exceptions are all caught: every
    element leaves its text, after a separator unless it is the first, and
    every failing element leaves a warning. *)
Lemma write_to_json_loop_emitted (results : list item) :
  Forall (fun x => match failure x with
                   | Some e => json_catches e = true
                   | None => True
                   end) results ->
  forall (f : file) (first : bool) (err : list (list piece)),
    exists f' : file,
      write_to_json_loop results f first err =
        (f', (err ++ (warning <$> omap failure results))%list, None) /\
      file_text f' =
        file_text f +:+
        (if first then join ("," +:+ nl) (emitted <$> results)
         else continued (emitted <$> results)).
Proof.
  induction 1 as [|x results Hx _ IH]; intros f first err.
  - exists f. split; [cbn; rewrite List.app_nil_r; reflexivity|].
    destruct first; symmetry; apply app_nil_r.
  - cbn [write_to_json_loop fmap list_fmap omap list_omap].
    unfold failure, emitted in *.
    set (f1 := if negb first then file_write ("," +:+ nl) f else f).
    assert (Hf1 : forall t : string,
              file_text f1 +:+ t +:+ continued (emitted <$> results) =
              file_text f +:+
              (if first then join ("," +:+ nl) (t :: (emitted <$> results))
               else continued (t :: (emitted <$> results)))).
    { intros t. subst f1. destruct first; cbn [negb].
      - rewrite join_continued. reflexivity.
      - rewrite file_text_write. cbn [continued fold_right].
        rewrite !app_assoc. reflexivity. }
    destruct (serialize x) as [data|e].
    + destruct (json_dump data) as [text [e|]]; cbn [fst snd] in *.
      * rewrite Hx.
        destruct (IH (file_write text f1) false (err ++ [warning e])%list)
          as (f' & Hloop & Htext).
        exists f'. split.
        -- rewrite Hloop, <- List.app_assoc. reflexivity.
        -- rewrite Htext, file_text_write, app_assoc. apply Hf1.
      * destruct (IH (file_write text f1) false err) as (f' & Hloop & Htext).
        exists f'. split; [exact Hloop|].
        rewrite Htext, file_text_write, app_assoc. apply Hf1.
    + rewrite Hx.
      destruct (IH f1 false (err ++ [warning e])%list)
        as (f' & Hloop & Htext).
      exists f'. split.
      * rewrite Hloop, <- List.app_assoc. reflexivity.
      * rewrite Htext. apply (Hf1 "").
Qed.

End JsonEmitted.

(** X25. When every exception met is one the JSON writers catch, both
    writers return with the same file: between the brackets, one entry
    per element of the sequence, separated by a comma and a newline, where
    the entry of an element is the text [json.dump] wrote for it and is
    empty when its [serialize()] raised.  So the file has as many
    separators as the sequence has elements, less one, however many
    elements were skipped; and one warning is printed for each of
    these. *)
Theorem write_to_json_caught_failures `{R : Runtime} (results : list item)
    (filename : string) :
  Forall (fun x => match failure x with
                   | Some e => json_catches e = true
                   | None => True
                   end) results ->
  written (write_to_json results filename) =
    "[" +:+ nl +:+ join ("," +:+ nl) (emitted <$> results) +:+ nl +:+ "]" /\
  written (write_to_json_streaming results filename) =
    "[" +:+ nl +:+ join ("," +:+ nl) (emitted <$> results) +:+ nl +:+ "]" /\
  stderr (write_to_json results filename) = warning <$> omap failure results /\
  outcome (write_to_json results filename) = Ok tt /\
  outcome (write_to_json_streaming results filename) = Ok tt.
Proof.
  intros H.
  destruct (write_to_json_loop_emitted results H
              (file_write ("[" +:+ nl) file_open) true [])
    as (f' & Hloop & Htext).
  pose proof (write_to_json_loops_agree results
                (file_write ("[" +:+ nl) file_open)
                (file_write ("[" +:+ nl) file_open) true [] eq_refl) as Hagree.
  unfold write_to_json, write_to_json_streaming.
  rewrite Hloop in *.
  destruct (write_to_json_streaming_loop results _ true [])
    as [[g err2] stop2].
  destruct Hagree as (Hg & <- & <-).
  cbn [written stderr outcome].
  rewrite !file_close_text, !file_text_write, <- Hg, Htext.
  change (file_text (file_write ("[" +:+ nl) file_open)) with ("[" +:+ nl).
  rewrite !app_assoc. repeat split.
Qed.

Lemma write_to_json_caught_failures_witness :
  let results :=
    [Duck (Ok (PFloat 1));
     Duck (Raise (Exn AttributeError
                    [Lit "'NoneType' object has no attribute 'serialize'"]));
     Duck (Ok PNone)] in
  written (write_to_json (R := Demo.runtime) results "out.json") =
    "[" +:+ nl +:+ "1.0" +:+ "," +:+ nl +:+ "" +:+ "," +:+ nl +:+ "null"
    +:+ nl +:+ "]" /\
  outcome (write_to_json (R := Demo.runtime) results "out.json") = Ok tt.
Proof.
  intros results.
  destruct (write_to_json_caught_failures (R := Demo.runtime)
              results "out.json") as (H1 & _ & _ & H2 & _).
  - subst results.
    repeat apply Forall_cons_2; try apply Forall_nil_2;
      try exact I; reflexivity.
  - split; [exact H1 | exact H2].
Defined.

Section JsonAbort.
Context {R : Runtime}.

Lemma write_to_json_loop_app (pre rest : list item) :
  forall (f : file) (first : bool) (err : list (list piece)),
    write_to_json_loop (pre ++ rest) f first err =
    match write_to_json_loop pre f first err with
    | (f', err', None) =>
        write_to_json_loop rest f'
          (match pre with [] => first | _ => false end) err'
    | stopped => stopped
    end.
Proof.
  induction pre as [|x pre IH]; intros f first err; [reflexivity|].
  assert (Hfirst : match pre with [] => false | _ :: _ => false end = false)
    by (destruct pre; reflexivity).
  cbn [app write_to_json_loop].
  destruct (serialize x) as [data|e].
  - destruct (json_dump data) as [text [e|]].
    + destruct (json_catches e); [|reflexivity].
      rewrite IH, Hfirst. reflexivity.
    + rewrite IH, Hfirst. reflexivity.
  - destruct (json_catches e); [|reflexivity].
    rewrite IH, Hfirst. reflexivity.
Qed.

End JsonAbort.

(** X26. When the elements before it are all written and one element's
    [serialize()] raises an exception that the JSON writer does not catch,
    the writer raises (an [OSError] wrapped with the file name, any other
    exception as it is) and leaves the file open-ended: the bracket, the
    elements written so far, and the separator already written for the
    failing element, but no closing bracket. *)
Theorem write_to_json_uncaught_leaves_open `{R : Runtime}
    (pre post : list item) (texts : list string) (e : exn)
    (filename : string) :
  Forall2 (fun x t => element_text x = Some t) pre texts ->
  json_catches e = false ->
  written (write_to_json (pre ++ Duck (Raise e) :: post) filename) =
    "[" +:+ nl +:+ join ("," +:+ nl) texts
    +:+ (match pre with [] => "" | _ => "," +:+ nl end) /\
  outcome (write_to_json (pre ++ Duck (Raise e) :: post) filename) =
    Raise (reraise "Failed to write JSON file " filename e) /\
  (exn_kind e <> OSError ->
   reraise "Failed to write JSON file " filename e = e).
Proof.
  intros Hpre He. unfold write_to_json.
  destruct (write_to_json_loop_texts pre texts Hpre
              (file_write ("[" +:+ nl) file_open) [])
    as (f' & Hloop & Htext).
  rewrite write_to_json_loop_app, Hloop.
  cbn [write_to_json_loop serialize]. rewrite He.
  cbn [written outcome]. split; [|split; [reflexivity|]].
  - rewrite file_close_text.
    destruct pre; cbn [negb];
      [|rewrite file_text_write]; rewrite Htext;
      change (file_text (file_write ("[" +:+ nl) file_open))
        with ("[" +:+ nl);
      rewrite ?app_assoc, ?app_nil_r; reflexivity.
  - unfold reraise. destruct (exn_kind e); try reflexivity. contradiction.
Qed.

Lemma write_to_json_uncaught_leaves_open_witness :
  let results :=
    [Duck (Ok (PFloat 1)); Duck (Raise (Exn KeyError [Fmt (PStr "neo")]));
     Duck (Ok PNone)] in
  written (write_to_json (R := Demo.runtime) results "out.json") =
    "[" +:+ nl +:+ "1.0" +:+ "," +:+ nl /\
  outcome (write_to_json (R := Demo.runtime) results "out.json") =
    Raise (Exn KeyError [Fmt (PStr "neo")]).
Proof.
  intros results.
  destruct (write_to_json_uncaught_leaves_open (R := Demo.runtime)
              [Duck (Ok (PFloat 1))] [Duck (Ok PNone)] ["1.0"]
              (Exn KeyError [Fmt (PStr "neo")]) "out.json")
    as (H1 & H2 & _).
  - repeat constructor.
  - reflexivity.
  - split; [exact H1 | exact H2].
Defined.

(** ** Which exceptions the writers skip *)

Section Skips.
Context {R : Runtime}.

Lemma write_to_csv_loop_app (pre rest : list item) :
  forall (f : file) (err : list (list piece)),
    write_to_csv_loop (pre ++ rest) f err =
    match write_to_csv_loop pre f err with
    | (f', err', None) => write_to_csv_loop rest f' err'
    | stopped => stopped
    end.
Proof.
  induction pre as [|x pre IH]; intros f err; [reflexivity|].
  cbn [app write_to_csv_loop].
  destruct (csv_row x) as [row|e]; [apply IH|].
  destruct (csv_catches e); [apply IH | reflexivity].
Qed.

(** The warnings already printed play no part in a run of the CSV loop. *)
Lemma write_to_csv_loop_err (results : list item) :
  forall (f : file) (err : list (list piece)),
    write_to_csv_loop results f err =
    (let '(f', more, stop) := write_to_csv_loop results f [] in
     (f', (err ++ more)%list, stop)).
Proof.
  induction results as [|x results IH]; intros f err.
  - cbn. rewrite List.app_nil_r. reflexivity.
  - cbn [write_to_csv_loop].
    destruct (csv_row x) as [row|e]; [apply IH|].
    destruct (csv_catches e).
    + rewrite (IH f (err ++ [warning e])%list), (IH f ([] ++ [warning e])%list).
      destruct (write_to_csv_loop results f []) as [[f' more] stop].
      rewrite <- List.app_assoc. reflexivity.
    + rewrite List.app_nil_r. reflexivity.
Qed.

(** A run of the buffered JSON loop prints and ends as its trace says. *)
Lemma write_to_json_loop_trace (results : list item) :
  forall (f : file) (first : bool) (err : list (list piece)),
    exists f' : file,
      write_to_json_loop results f first err =
      (f', (err ++ (json_trace results).1)%list, (json_trace results).2).
Proof.
  induction results as [|x results IH]; intros f first err.
  - exists f. cbn. rewrite List.app_nil_r. reflexivity.
  - cbn [write_to_json_loop json_trace]. unfold failure.
    set (f1 := if negb first then file_write ("," +:+ nl) f else f).
    destruct (serialize x) as [data|e].
    + destruct (json_dump data) as [text [e|]]; cbn [snd].
      * destruct (json_catches e).
        -- destruct (IH (file_write text f1) false (err ++ [warning e])%list)
             as [f' ->].
           exists f'. cbn [fst snd]. rewrite <- List.app_assoc. reflexivity.
        -- exists (file_write text f1). cbn [fst snd].
           rewrite List.app_nil_r. reflexivity.
      * apply IH.
    + destruct (json_catches e).
      * destruct (IH f1 false (err ++ [warning e])%list) as [f' ->].
        exists f'. cbn [fst snd]. rewrite <- List.app_assoc. reflexivity.
      * exists f1. cbn [fst snd]. rewrite List.app_nil_r. reflexivity.
Qed.

Lemma json_trace_app (pre rest : list item) :
  json_trace (pre ++ rest) =
  match (json_trace pre).2 with
  | None => (((json_trace pre).1 ++ (json_trace rest).1)%list,
             (json_trace rest).2)
  | Some e => json_trace pre
  end.
Proof.
  induction pre as [|x pre IH].
  - cbn. destruct (json_trace rest). reflexivity.
  - cbn [app json_trace].
    destruct (failure x) as [e|]; [|exact IH].
    destruct (json_catches e); [|reflexivity].
    rewrite IH. destruct (json_trace pre) as [w [e'|]]; reflexivity.
Qed.

(** What the two JSON writers print and answer, from the trace. *)
Lemma write_to_json_by_trace (results : list item) (filename : string) :
  stderr (write_to_json results filename) = (json_trace results).1 /\
  outcome (write_to_json results filename) =
    match (json_trace results).2 with
    | None => Ok tt
    | Some e => Raise (reraise "Failed to write JSON file " filename e)
    end /\
  stderr (write_to_json_streaming results filename) = (json_trace results).1 /\
  outcome (write_to_json_streaming results filename) =
    match (json_trace results).2 with
    | None => Ok tt
    | Some e =>
        Raise (reraise "Failed to write streaming JSON file " filename e)
    end.
Proof.
  pose proof (write_to_json_loops_agree results
                (file_write ("[" +:+ nl) file_open)
                (file_write ("[" +:+ nl) file_open) true [] eq_refl) as Hagree.
  destruct (write_to_json_loop_trace results
              (file_write ("[" +:+ nl) file_open) true []) as [f' Hloop].
  unfold write_to_json, write_to_json_streaming.
  rewrite Hloop in *.
  destruct (write_to_json_streaming_loop results _ true [])
    as [[g err2] stop2].
  destruct Hagree as (_ & <- & <-).
  destruct (json_trace results).2; repeat split.
Qed.

End Skips.

Section SkipOrAbort.
Context {R : Runtime}.
Variables (pre post : list item) (e : exn) (filename : string).

Lemma write_to_csv_skips :
  csv_catches e = true ->
  written (write_to_csv (pre ++ Duck (Raise e) :: post) filename) =
    written (write_to_csv (pre ++ post) filename) /\
  outcome (write_to_csv (pre ++ Duck (Raise e) :: post) filename) =
    outcome (write_to_csv (pre ++ post) filename) /\
  (outcome (write_to_csv pre filename) = Ok tt ->
   warning e ∈ stderr (write_to_csv (pre ++ Duck (Raise e) :: post) filename)).
Proof.
  intros He. unfold write_to_csv. rewrite !write_to_csv_loop_app.
  destruct (write_to_csv_loop pre _ []) as [[f1 e1] [stop|]].
  - repeat split. discriminate.
  - cbn [write_to_csv_loop]. change (csv_row (Duck (Raise e))) with
      (Raise (A := list pyval) e).
    cbn beta iota. rewrite He.
    rewrite (write_to_csv_loop_err post f1 (e1 ++ [warning e])%list),
      (write_to_csv_loop_err post f1 e1).
    destruct (write_to_csv_loop post f1 []) as [[f' more] [stop|]];
      repeat split; intros _; cbn [stderr];
      rewrite !elem_of_app, list_elem_of_singleton; auto.
Qed.

Lemma write_to_csv_aborts :
  csv_catches e = false ->
  raises (outcome (write_to_csv (pre ++ Duck (Raise e) :: post) filename))
    = true /\
  (outcome (write_to_csv pre filename) = Ok tt ->
   outcome (write_to_csv (pre ++ Duck (Raise e) :: post) filename) =
     Raise (reraise "Failed to write CSV file " filename e)).
Proof.
  intros He. unfold write_to_csv. rewrite write_to_csv_loop_app.
  destruct (write_to_csv_loop pre _ []) as [[f1 e1] [stop|]].
  - split; [reflexivity | discriminate].
  - cbn [write_to_csv_loop]. change (csv_row (Duck (Raise e))) with
      (Raise (A := list pyval) e).
    cbn beta iota. rewrite He. split; reflexivity.
Qed.

Lemma json_trace_skip :
  json_catches e = true ->
  (json_trace (pre ++ Duck (Raise e) :: post)).2 = (json_trace (pre ++ post)).2
  /\ ((json_trace pre).2 = None ->
      warning e ∈ (json_trace (pre ++ Duck (Raise e) :: post)).1).
Proof.
  intros He. rewrite !json_trace_app. cbn [json_trace].
  change (failure (Duck (Raise e))) with (Some e). cbn beta iota.
  rewrite He.
  destruct (json_trace pre) as [w [stop|]]; cbn [fst snd].
  - split; [reflexivity | discriminate].
  - split; [reflexivity|]. intros _.
    rewrite elem_of_app, elem_of_cons. auto.
Qed.

Lemma json_trace_abort :
  json_catches e = false ->
  is_Some (json_trace (pre ++ Duck (Raise e) :: post)).2 /\
  ((json_trace pre).2 = None ->
   (json_trace (pre ++ Duck (Raise e) :: post)).2 = Some e).
Proof.
  intros He. rewrite json_trace_app. cbn [json_trace].
  change (failure (Duck (Raise e))) with (Some e). cbn beta iota.
  rewrite He.
  destruct (json_trace pre) as [w [stop|]]; cbn [fst snd].
  - split; [eexists; reflexivity | discriminate].
  - split; [eexists; reflexivity | reflexivity].
Qed.

Lemma write_to_json_completes (results : list item) :
  outcome (write_to_json results filename) = Ok tt ->
  (json_trace results).2 = None.
Proof.
  destruct (write_to_json_by_trace results filename) as (_ & -> & _).
  destruct (json_trace results).2; [discriminate | reflexivity].
Qed.

End SkipOrAbort.

(** C10. The writers skip different classes of exception.  When an
    element's [serialize()] raises [AttributeError] or [KeyError],
    [write_to_csv] prints the warning and goes on: the file and the answer
    are those of the sequence without the element.  When it raises
    anything else, [TypeError] included, the export is aborted: the call
    raises, with that exception when the elements before it let the
    export reach it, and the elements after it are never reached.  The two
    JSON writers do the same with [AttributeError] and [TypeError] as the
    classes they skip, so that a [KeyError] aborts a JSON export. *)
Theorem writers_catch_different_classes `{R : Runtime}
    (pre post : list item) (e : exn) (filename : string) :
  let bad := Duck (Raise e) in
  (exn_kind e = AttributeError \/ exn_kind e = KeyError ->
   written (write_to_csv (pre ++ bad :: post) filename) =
     written (write_to_csv (pre ++ post) filename) /\
   outcome (write_to_csv (pre ++ bad :: post) filename) =
     outcome (write_to_csv (pre ++ post) filename) /\
   (outcome (write_to_csv pre filename) = Ok tt ->
    warning e ∈ stderr (write_to_csv (pre ++ bad :: post) filename))) /\
  (exn_kind e <> AttributeError -> exn_kind e <> KeyError ->
   raises (outcome (write_to_csv (pre ++ bad :: post) filename)) = true /\
   write_to_csv (pre ++ bad :: post) filename =
     write_to_csv (pre ++ [bad]) filename /\
   (outcome (write_to_csv pre filename) = Ok tt ->
    outcome (write_to_csv (pre ++ bad :: post) filename) =
      Raise (reraise "Failed to write CSV file " filename e))) /\
  (exn_kind e = AttributeError \/ exn_kind e = TypeError ->
   outcome (write_to_json (pre ++ bad :: post) filename) =
     outcome (write_to_json (pre ++ post) filename) /\
   outcome (write_to_json_streaming (pre ++ bad :: post) filename) =
     outcome (write_to_json_streaming (pre ++ post) filename) /\
   (outcome (write_to_json pre filename) = Ok tt ->
    warning e ∈ stderr (write_to_json (pre ++ bad :: post) filename) /\
    warning e ∈
      stderr (write_to_json_streaming (pre ++ bad :: post) filename))) /\
  (exn_kind e <> AttributeError -> exn_kind e <> TypeError ->
   raises (outcome (write_to_json (pre ++ bad :: post) filename)) = true /\
   raises (outcome (write_to_json_streaming (pre ++ bad :: post) filename))
     = true /\
   write_to_json (pre ++ bad :: post) filename =
     write_to_json (pre ++ [bad]) filename /\
   write_to_json_streaming (pre ++ bad :: post) filename =
     write_to_json_streaming (pre ++ [bad]) filename /\
   (outcome (write_to_json pre filename) = Ok tt ->
    outcome (write_to_json (pre ++ bad :: post) filename) =
      Raise (reraise "Failed to write JSON file " filename e) /\
    outcome (write_to_json_streaming (pre ++ bad :: post) filename) =
      Raise (reraise "Failed to write streaming JSON file " filename e))).
Proof.
  intros bad. subst bad. split; [|split; [|split]].
  - intros Hk. apply write_to_csv_skips.
    unfold csv_catches. destruct Hk as [-> | ->]; reflexivity.
  - intros H1 H2.
    assert (He : csv_catches e = false)
      by (unfold csv_catches; destruct (exn_kind e); congruence).
    destruct (write_to_csv_aborts pre post e filename He) as [Hr Hx].
    split; [exact Hr|]. split; [|exact Hx].
    unfold write_to_csv.
    rewrite (write_to_csv_loop_abort pre post e He). reflexivity.
  - intros Hk.
    assert (He : json_catches e = true)
      by (unfold json_catches; destruct Hk as [-> | ->]; reflexivity).
    destruct (json_trace_skip pre post e He) as [Hstop Hwarn].
    destruct (write_to_json_by_trace (pre ++ Duck (Raise e) :: post) filename)
      as (-> & -> & -> & ->).
    destruct (write_to_json_by_trace (pre ++ post) filename)
      as (_ & -> & _ & ->).
    rewrite Hstop. split; [reflexivity|]. split; [reflexivity|].
    intros Hpre%write_to_json_completes. auto.
  - intros H1 H2.
    assert (He : json_catches e = false)
      by (unfold json_catches; destruct (exn_kind e); congruence).
    destruct (json_trace_abort pre post e He) as [[e' Hsome] Hexact].
    destruct (write_to_json_by_trace (pre ++ Duck (Raise e) :: post) filename)
      as (_ & Hout & _ & Hout').
    repeat split.
    + rewrite Hout, Hsome. reflexivity.
    + rewrite Hout', Hsome. reflexivity.
    + unfold write_to_json.
      rewrite (write_to_json_loop_abort pre post e He). reflexivity.
    + unfold write_to_json_streaming.
      rewrite (write_to_json_streaming_loop_abort pre post e He). reflexivity.
    + rewrite Hout, (Hexact (write_to_json_completes _ _ H)). reflexivity.
    + rewrite Hout', (Hexact (write_to_json_completes _ _ H)). reflexivity.
Qed.

Lemma writers_catch_different_classes_witness :
  let pre := [Approach sample_approach] in
  let post := [Approach sample_approach] in
  let key_error := Exn KeyError [Lit "'neo'"] in
  outcome (write_to_json (pre ++ Duck (Raise key_error) :: post) "out.json") =
    Raise key_error /\
  outcome
    (write_to_json_streaming (pre ++ Duck (Raise key_error) :: post) "out.json")
    = Raise key_error /\
  outcome (write_to_csv (pre ++ Duck (Raise key_error) :: post) "out.csv") =
    outcome (write_to_csv (pre ++ post) "out.csv") /\
  written (write_to_csv (pre ++ Duck (Raise key_error) :: post) "out.csv") =
    written (write_to_csv (pre ++ post) "out.csv").
Proof.
  intros pre post key_error.
  destruct (writers_catch_different_classes (R := Demo.runtime)
              pre post key_error "out.json") as (_ & _ & _ & Hjson).
  destruct (writers_catch_different_classes (R := Demo.runtime)
              pre post key_error "out.csv") as (Hcsv & _).
  destruct (Hjson ltac:(discriminate) ltac:(discriminate))
    as (_ & _ & _ & _ & Hexact).
  destruct (Hexact eq_refl) as [H1 H2].
  destruct (Hcsv (or_intror eq_refl)) as (H3 & H4 & _).
  repeat split; assumption.
Defined.
